(** * TRXO soft gateway: a shallow embedding of [docs/javascripts/gateway.js]
      and [docs/javascripts/email-validation.js]

    The two scripts are event handlers over browser state: the location,
    [localStorage], a handful of DOM elements looked up by id or selector,
    the listeners registered on them, the mutation observers and the pending
    timers.  That state is the record [World]; every function of the scripts
    is a function on it.  A JavaScript exception is the [Throw] branch of
    [Result].

    Strings are sequences of code units in the range 0..255 (Rocq's
    [string]); [trim] and [toLowerCase] follow ECMAScript on that range. *)

From Stdlib Require Import Ascii String ZArith.
From stdpp Require Import base strings list gmap.

Open Scope string_scope.
Open Scope list_scope.

(* ===================================================================== *)
(** ** JavaScript string primitives used by the scripts                   *)
(* ===================================================================== *)

Module Js.

(** [s === t] on strings. *)
Definition str_eq (s t : string) : bool := String.eqb s t.

(** [s.startsWith(p)]. *)
Fixpoint startsWith (s p : string) {struct p} : bool :=
  match p with
  | EmptyString => true
  | String c p' =>
      match s with
      | EmptyString => false
      | String d s' => Ascii.eqb d c && startsWith s' p'
      end
  end.

(** [s.slice(start, end)]: negative indices count from the end, both are
    clamped to [0, length]. *)
Definition clamp_index (len i : Z) : Z :=
  if (i <? 0)%Z then Z.max (len + i) 0 else Z.min i len.

Definition slice (s : string) (start end_ : Z) : string :=
  let len := Z.of_nat (String.length s) in
  let from := clamp_index len start in
  let to := clamp_index len end_ in
  String.substring (Z.to_nat from) (Z.to_nat (Z.max (to - from) 0)) s.

(** White space and line terminators of ECMAScript below code unit 256:
    TAB, LF, VT, FF, CR, SP and NBSP. *)
Definition isWhiteSpace (c : ascii) : bool :=
  let n := nat_of_ascii c in
  Nat.eqb n 9 || Nat.eqb n 10 || Nat.eqb n 11 || Nat.eqb n 12
  || Nat.eqb n 13 || Nat.eqb n 32 || Nat.eqb n 160.

Fixpoint trimStart (s : string) : string :=
  match s with
  | EmptyString => EmptyString
  | String c r => if isWhiteSpace c then trimStart r else s
  end.

Fixpoint trimEnd (s : string) : string :=
  match s with
  | EmptyString => EmptyString
  | String c r =>
      let r' := trimEnd r in
      if isWhiteSpace c && str_eq r' EmptyString then EmptyString else String c r'
  end.

(** [s.trim()]. *)
Definition trim (s : string) : string := trimEnd (trimStart s).

(** Lower-casing of one code unit: A-Z, and the Latin-1 capitals
    U+00C0..U+00DE except the multiplication sign U+00D7. *)
Definition lowerChar (c : ascii) : ascii :=
  let n := nat_of_ascii c in
  if (Nat.leb 65 n && Nat.leb n 90)
     || (Nat.leb 192 n && Nat.leb n 222 && negb (Nat.eqb n 215))
  then ascii_of_nat (n + 32) else c.

(** [s.toLowerCase()]. *)
Fixpoint toLowerCase (s : string) : string :=
  match s with
  | EmptyString => EmptyString
  | String c r => String (lowerChar c) (toLowerCase r)
  end.

(** [s.split(sep)] for a one-character separator: never empty, the
    empty string splits into one empty segment. *)
Fixpoint split (sep : ascii) (s : string) : list string :=
  match s with
  | EmptyString => [EmptyString]
  | String c r =>
      if Ascii.eqb c sep then EmptyString :: split sep r
      else match split sep r with
           | h :: t => String c h :: t
           | [] => [String c EmptyString]
           end
  end.

(** [arr.includes(x)] on an array of strings. *)
Definition includes (arr : list string) (x : string) : bool :=
  existsb (str_eq x) arr.

(** [arr.some(f)]. *)
Definition some {A} (f : A -> bool) (arr : list A) : bool := existsb f arr.

End Js.

(* ===================================================================== *)
(** ** Results of a handler: a value, or an uncaught exception           *)
(* ===================================================================== *)

Inductive JsError : Type :=
| SecurityError        (* thrown by an access to a storage that is disabled *)
| QuotaExceededError.  (* thrown by [setItem] when the value cannot be stored *)

Inductive Result (A : Type) : Type :=
| Ok (a : A)
| Throw (e : JsError).
Arguments Ok {A} a.
Arguments Throw {A} e.

(* ===================================================================== *)
(** ** Browser state                                                      *)
(* ===================================================================== *)

(** Identity of a listener callback.  [validateEmail] and
    [validateEmailClick] are the two named functions of
    email-validation.js; the function expression passed for the "input"
    event is a new object at every evaluation, told apart by a serial
    number; anything else on the page is a third-party function. *)
Inductive Callback : Type :=
| cb_validateEmail
| cb_validateEmailClick
| cb_inputClear (serial : nat)
| cb_external (name : string).

Global Instance Callback_eq_dec : EqDecision Callback.
Proof. solve_decision. Defined.

(** An entry of an event target's listener list. *)
Record Listener : Type := mkListener {
  l_type : string;
  l_callback : Callback;
  l_capture : bool
}.

Global Instance Listener_eq_dec : EqDecision Listener.
Proof. solve_decision. Defined.

(** The properties of an element that the scripts read or write.  Of
    the tree of the page one relation matters to the scripts, since the
    one assignment to [innerHTML] is made on the gateway container:
    whether the element lies inside that container. *)
Record Element : Type := mkElement {
  node : nat;                  (* identity of the node *)
  display : string;            (* style.display *)
  border : string;             (* style.border *)
  content : string;            (* innerText / innerHTML *)
  value : string;              (* value of an input *)
  hasOffsetParent : bool;      (* offsetParent !== null *)
  listeners : list Listener;   (* its event listener list *)
  inGateway : bool             (* a descendant of .gateway-container *)
}.

Definition set_display (d : string) (el : Element) : Element :=
  mkElement (node el) d (border el) (content el) (value el)
            (hasOffsetParent el) (listeners el) (inGateway el).
Definition set_border (b : string) (el : Element) : Element :=
  mkElement (node el) (display el) b (content el) (value el)
            (hasOffsetParent el) (listeners el) (inGateway el).
Definition set_content (c : string) (el : Element) : Element :=
  mkElement (node el) (display el) (border el) c (value el)
            (hasOffsetParent el) (listeners el) (inGateway el).
Definition set_listeners (ls : list Listener) (el : Element) : Element :=
  mkElement (node el) (display el) (border el) (content el) (value el)
            (hasOffsetParent el) ls (inGateway el).

(** [localStorage]: either every access throws (storage disabled for the
    origin), or it is a map from keys to strings.  A map that is out of
    quota can still be read, but [setItem] throws on it (the state of a
    full store, and of a browser that gives the origin no quota). *)
Inductive Storage : Type :=
| StorageDisabled
| StorageReady (items : gmap string string)
| StorageFull (items : gmap string string).

(** A call of [window.location]: the scripts only ever use [replace];
    [NavAssign] stands for a navigation that pushes a history entry. *)
Inductive Navigation : Type :=
| NavReplace (url : string)
| NavAssign (url : string).

(** The function handed to [setTimeout]. *)
Inductive TimerAction : Type :=
| ta_redirectToDashboard      (* gateway.js: location.replace(getDashboardPath()) *)
| ta_initEmailValidation.     (* email-validation.js *)

Record Timer : Type := mkTimer {
  t_delay : nat;               (* milliseconds *)
  t_action : TimerAction
}.

(** A mutation observer that is observing a node. *)
Record Observation : Type := mkObservation {
  obs_id : nat;
  obs_target : nat             (* [node] of the observed element *)
}.

Record World : Type := mkWorld {
  pathname : string;                  (* window.location.pathname *)
  localStorage : Storage;
  document : gmap string Element;     (* elements by selector *)
  observers : list Observation;       (* observers that are observing *)
  timers : list Timer;                (* pending one-shot timers *)
  navigations : list Navigation;      (* calls of window.location, oldest first *)
  serial : nat                        (* next fresh object identity *)
}.

Definition with_storage (s : Storage) (w : World) : World :=
  mkWorld (pathname w) s (document w) (observers w) (timers w)
          (navigations w) (serial w).
Definition with_document (d : gmap string Element) (w : World) : World :=
  mkWorld (pathname w) (localStorage w) d (observers w) (timers w)
          (navigations w) (serial w).
Definition with_observers (o : list Observation) (w : World) : World :=
  mkWorld (pathname w) (localStorage w) (document w) o (timers w)
          (navigations w) (serial w).
Definition with_timers (t : list Timer) (w : World) : World :=
  mkWorld (pathname w) (localStorage w) (document w) (observers w) t
          (navigations w) (serial w).
Definition with_navigations (n : list Navigation) (w : World) : World :=
  mkWorld (pathname w) (localStorage w) (document w) (observers w) (timers w)
          n (serial w).
Definition with_serial (n : nat) (w : World) : World :=
  mkWorld (pathname w) (localStorage w) (document w) (observers w) (timers w)
          (navigations w) n.

(** [document.getElementById(id)] and [document.querySelector(sel)]; the
    document is keyed by selector, an id [x] being the selector [#x]. *)
Definition getElementById (w : World) (id : string) : option Element :=
  document w !! ("#" +:+ id).
Definition querySelector (w : World) (sel : string) : option Element :=
  document w !! sel.

(** Update of the element under a selector; nothing happens when the
    element is absent (the scripts guard every access with [if (el)]). *)
Definition update (sel : string) (f : Element -> Element) (w : World) : World :=
  with_document (alter f sel (document w)) w.

(** [localStorage.getItem(k)]: [null] is [None]. *)
Definition getItem (w : World) (k : string) : Result (option string) :=
  match localStorage w with
  | StorageDisabled => Throw SecurityError
  | StorageReady items | StorageFull items => Ok (items !! k)
  end.

(** [localStorage.setItem(k, v)]: the write can fail where the read did
    not. *)
Definition setItem (k v : string) (w : World) : Result World :=
  match localStorage w with
  | StorageDisabled => Throw SecurityError
  | StorageReady items => Ok (with_storage (StorageReady (<[k := v]> items)) w)
  | StorageFull _ => Throw QuotaExceededError
  end.

(** [window.location.replace(url)]. *)
Definition location_replace (url : string) (w : World) : World :=
  with_navigations (navigations w ++ [NavReplace url]) w.

(** [setTimeout(f, ms)]. *)
Definition setTimeout (f : TimerAction) (ms : nat) (w : World) : World :=
  with_timers (timers w ++ [mkTimer ms f]) w.

(* ===================================================================== *)
(** ** gateway.js                                                         *)
(* ===================================================================== *)

Definition ACCESS_KEY : string := "trxo_access_granted".

Definition GATEWAY_PATHS : list string :=
  ["/trxo/"; "/trxo/index.html"; "/"; "/index.html"].

Definition getDashboardPath (w : World) : string :=
  let path := pathname w in
  if Js.startsWith path "/trxo" then "/trxo/home/" else "/home/".

Definition getGatewayPath (w : World) : string :=
  let path := pathname w in
  if Js.startsWith path "/trxo" then "/trxo/" else "/".

Definition isGatewayPage (w : World) : bool :=
  let path := pathname w in
  Js.some (fun p => Js.str_eq path p || Js.str_eq path (Js.slice p 0 (-1)))
          GATEWAY_PATHS.

(** The local [hasAccess] of [enforceAccess]:
    [localStorage.getItem(ACCESS_KEY) === 'true']; nothing catches the
    exception of a disabled storage. *)
Definition hasAccess (w : World) : Result bool :=
  match getItem w ACCESS_KEY with
  | Throw e => Throw e
  | Ok (Some v) => Ok (Js.str_eq v "true")
  | Ok None => Ok false
  end.

(** [initFormObserver]: a new [MutationObserver] is made at every call and
    starts observing the form container when that element exists.  No
    observer made earlier is disconnected. *)
Definition initFormObserver (w : World) : World :=
  let observer := serial w in
  let w1 := with_serial (S observer) w in
  match getElementById w1 "sib-form-container" with
  | Some formContainer =>
      with_observers (observers w1 ++ [mkObservation observer (node formContainer)]) w1
  | None => w1
  end.

Definition enforceAccess (w : World) : Result World :=
  match hasAccess w with
  | Throw e => Throw e
  | Ok hasAccess =>
      let onGateway := isGatewayPage w in
      if hasAccess then
        if onGateway then Ok (location_replace (getDashboardPath w) w)
        else Ok w
      else
        if negb onGateway then Ok (location_replace (getGatewayPath w) w)
        else
          let w1 := initFormObserver w in
          let w2 := update ".md-header" (set_display "none") w1 in
          Ok (update ".md-tabs" (set_display "none") w2)
  end.

Definition SUCCESS_HTML : string :=
  "<h2>Success! Redirecting to documentation...</h2>".

(** The test of the observer's callback on the success indicator. *)
Definition successVisible (w : World) : bool :=
  match getElementById w "success-message" with
  | Some successMsg =>
      negb (Js.str_eq (display successMsg) "none") && hasOffsetParent successMsg
  | None => false
  end.

(** [container.innerHTML = html] on the gateway container, under its
    guard [if (container)]: the content of the container is replaced, and
    the elements that were inside it are in the document no more. *)
Definition replaceGatewayContent (html : string) (w : World) : World :=
  match querySelector w ".gateway-container" with
  | Some _ =>
      with_document
        (alter (set_content html) ".gateway-container"
           (filter (fun kv : string * Element =>
                      kv.1 = ".gateway-container" \/ inGateway kv.2 = false)
                   (document w)))
        w
  | None => w
  end.

(** The function given to [new MutationObserver], run at a notification. *)
Definition observerCallback (w : World) : Result World :=
  if successVisible w then
    match setItem ACCESS_KEY "true" w with
    | Throw e => Throw e
    | Ok w1 =>
        let w2 := replaceGatewayContent SUCCESS_HTML w1 in
        Ok (setTimeout ta_redirectToDashboard 1500 w2)
    end
  else Ok w.

(* ===================================================================== *)
(** ** Event targets (DOM Standard)                                       *)
(* ===================================================================== *)

Record Event : Type := mkEvent {
  e_type : string;
  defaultPrevented : bool;          (* canceled flag *)
  immediateStopped : bool           (* stop immediate propagation flag *)
}.

Definition preventDefault (e : Event) : Event :=
  mkEvent (e_type e) true (immediateStopped e).
Definition stopImmediatePropagation (e : Event) : Event :=
  mkEvent (e_type e) (defaultPrevented e) true.

(** [el.addEventListener(type, cb, capture)]: appended unless the list has
    an entry with the same type, callback and capture. *)
Definition addEventListener (type : string) (cb : Callback) (capture : bool)
    (el : Element) : Element :=
  let l := mkListener type cb capture in
  if bool_decide (l ∈ listeners el) then el
  else set_listeners (listeners el ++ [l]) el.

Fixpoint remove_listener (l : Listener) (ls : list Listener) : list Listener :=
  match ls with
  | [] => []
  | x :: r => if bool_decide (x = l) then r else x :: remove_listener l r
  end.

(** [el.removeEventListener(type, cb, capture)]: removes the entry with
    that type, callback and capture, and no other. *)
Definition removeEventListener (type : string) (cb : Callback) (capture : bool)
    (el : Element) : Element :=
  set_listeners (remove_listener (mkListener type cb capture) (listeners el)) el.

(* ===================================================================== *)
(** ** email-validation.js                                                *)
(* ===================================================================== *)

Definition SUBMIT_BTN : string := "#sib-form button[type=submit]".

Definition initEmailValidation (w : World) : World :=
  match getElementById w "sib-form" with
  | None => w
  | Some _ =>
      let w1 := update "#sib-form" (removeEventListener "submit" cb_validateEmail true) w in
      let w2 := update "#sib-form" (addEventListener "submit" cb_validateEmail true) w1 in
      let w3 :=
        match querySelector w2 SUBMIT_BTN with
        | Some _ =>
            update SUBMIT_BTN (addEventListener "click" cb_validateEmailClick true)
              (update SUBMIT_BTN (removeEventListener "click" cb_validateEmailClick true) w2)
        | None => w2
        end in
      match getElementById w3 "EMAIL" with
      | Some _ =>
          with_serial (S (serial w3))
            (update "#EMAIL" (addEventListener "input" (cb_inputClear (serial w3)) false) w3)
      | None => w3
      end
  end.

Definition blockedDomains : list string := ["gmail.com"; "yahoo.com"; "hotmail.com"].

Definition DENIAL_TEXT : string :=
  "Please use your business email address. Gmail, Yahoo and Hotmail are not allowed.".

Definition INVALID_BORDER : string := "1px solid #ff4949".
Definition VALID_BORDER : string := "1px solid #13ce66".

(** [processValidation]: the returned boolean and the state it leaves. *)
Definition processValidation (w : World) : bool * World :=
  match getElementById w "EMAIL" with
  | None => (true, w)
  | Some emailInput =>
      let emailValue := Js.toLowerCase (Js.trim (value emailInput)) in
      let parts := Js.split "@" emailValue in
      if Nat.ltb (length parts) 2 then (true, w)
      else
        let domain := List.last parts EmptyString in
        if Js.includes blockedDomains domain then
          let w1 := update "#email-error"
                      (fun errorLabel => set_display "block" (set_content DENIAL_TEXT errorLabel)) w in
          (false, update "#EMAIL" (set_border INVALID_BORDER) w1)
        else
          let w1 := update "#email-error" (set_display "none") w in
          (true, update "#EMAIL" (set_border VALID_BORDER) w1)
  end.

Definition validateEmail (w : World) (e : Event) : World * Event :=
  let '(ok, w') := processValidation w in
  if negb ok then (w', stopImmediatePropagation (preventDefault e))
  else (w', e).

Definition validateEmailClick (w : World) (e : Event) : World * Event :=
  let '(ok, w') := processValidation w in
  if negb ok then (w', stopImmediatePropagation (preventDefault e))
  else (w', e).

(** The "input" listener of the email field; [this] is the element the
    listener is registered on. *)
Definition inputClear (this : string) (w : World) : World :=
  let w1 := update "#email-error" (set_display "none") w in
  update this (set_border VALID_BORDER) w1.

(* ===================================================================== *)
(** ** Dispatch of an event at its target                                 *)
(* ===================================================================== *)

(** Running one callback.  A third-party function is opaque to these
    scripts: its call is recorded by [invoke], its own effects are not
    modelled. *)
Definition call (cb : Callback) (this : string) (w : World) (e : Event)
    : World * Event :=
  match cb with
  | cb_validateEmail => validateEmail w e
  | cb_validateEmailClick => validateEmailClick w e
  | cb_inputClear _ => (inputClear this w, e)
  | cb_external _ => (w, e)
  end.

(** The listeners are run in order until one stops immediate propagation;
    the callbacks that ran are returned oldest first. *)
Fixpoint invoke (ls : list Listener) (this : string) (w : World) (e : Event)
    : World * Event * list Callback :=
  match ls with
  | [] => (w, e, [])
  | l :: rest =>
      if immediateStopped e then (w, e, [])
      else
        let '(w1, e1) := call (l_callback l) this w e in
        let '(w2, e2, ran) := invoke rest this w1 e1 in
        (w2, e2, l_callback l :: ran)
  end.

(** At the target the capturing listeners of the event's type run first,
    then the non-capturing ones, each group in registration order. *)
Definition dispatch_order (type : string) (ls : list Listener) : list Listener :=
  let typed := filter (fun l => l_type l = type) ls in
  filter (fun l => l_capture l = true) typed
  ++ filter (fun l => l_capture l = false) typed.

Definition dispatchEvent (target : string) (type : string) (w : World)
    : World * Event * list Callback :=
  let e := mkEvent type false false in
  match querySelector w target with
  | None => (w, e, [])
  | Some el => invoke (dispatch_order type (listeners el)) target w e
  end.

(* ===================================================================== *)
(** ** Timers and the events the page receives                            *)
(* ===================================================================== *)

Definition runTimerAction (a : TimerAction) (w : World) : World :=
  match a with
  | ta_redirectToDashboard => location_replace (getDashboardPath w) w
  | ta_initEmailValidation => initEmailValidation w
  end.

(** The [i]-th pending timer fires: it leaves the pending list (timers
    made by [setTimeout] fire once) and its function runs. *)
Definition fireTimer (i : nat) (w : World) : World :=
  match timers w !! i with
  | Some t => runTimerAction (t_action t) (with_timers (delete i (timers w)) w)
  | None => w
  end.

(** A click on the submit button, the way a user submits a form whose
    fields satisfy its own constraints: the click listeners of the button
    run, and unless the click was cancelled the form is submitted, so its
    "submit" event is dispatched next.  The callbacks that ran are
    returned with the state. *)
Definition clickSubmit (w : World) : World * list Callback :=
  let '(w1, e, ran) := dispatchEvent SUBMIT_BTN "click" w in
  if defaultPrevented e then (w1, ran)
  else
    let '(w2, _, ran') := dispatchEvent "#sib-form" "submit" w1 in
    (w2, ran ++ ran').

(** What can happen to the page, one handler at a time. *)
Inductive Op : Type :=
| OpRender (path : string) (doc : gmap string Element)
    (* the host shows a page in place: new path, new elements *)
| OpEnforceAccess           (* gateway.js, on the navigation hook *)
| OpScheduleInit            (* email-validation.js, on the navigation hook *)
| OpInitEmailValidation     (* email-validation.js, on load *)
| OpNotify (i : nat)        (* the i-th observer is notified of a mutation *)
| OpTimer (i : nat)         (* the i-th pending timer fires *)
| OpSubmit                  (* "submit" is dispatched at the form *)
| OpClick                   (* the submit button is clicked *)
| OpInput.                  (* a keystroke in the email field *)

Definition step (op : Op) (w : World) : Result World :=
  match op with
  | OpRender path doc =>
      Ok (mkWorld path (localStorage w) doc (observers w) (timers w)
                  (navigations w) (serial w))
  | OpEnforceAccess => enforceAccess w
  | OpScheduleInit => Ok (setTimeout ta_initEmailValidation 100 w)
  | OpInitEmailValidation => Ok (initEmailValidation w)
  | OpNotify i =>
      match observers w !! i with
      | Some _ => observerCallback w
      | None => Ok w
      end
  | OpTimer i => Ok (fireTimer i w)
  | OpSubmit => Ok (dispatchEvent "#sib-form" "submit" w).1.1
  | OpClick => Ok (clickSubmit w).1
  | OpInput => Ok (dispatchEvent "#EMAIL" "input" w).1.1
  end.

(** An uncaught exception ends the handler that raised it; the page goes
    on with the state it had (both throwing handlers throw before their
    first write). *)
Definition after (op : Op) (w : World) : World :=
  match step op w with
  | Ok w' => w'
  | Throw _ => w
  end.

Definition run (ops : list Op) (w : World) : World :=
  fold_left (fun w op => after op w) ops w.

(* ===================================================================== *)
(** ** Sample pages                                                       *)
(* ===================================================================== *)

Definition blank (n : nat) : Element :=
  mkElement n EmptyString EmptyString EmptyString EmptyString true [] false.

Definition input_with (n : nat) (v : string) : Element :=
  mkElement n EmptyString EmptyString EmptyString v true [] false.

(** The gateway page as the template renders it, with [v] typed in the
    email field. *)
Definition gateway_document (v : string) : gmap string Element :=
  list_to_map
    [ (".md-header", blank 1); (".md-tabs", blank 2);
      (".gateway-container", blank 3); ("#sib-form-container", blank 4);
      ("#success-message", set_display "none" (blank 5));
      ("#sib-form", blank 6); (SUBMIT_BTN, blank 7);
      ("#EMAIL", input_with 8 v);
      ("#email-error", set_display "none" (blank 9)) ].

Definition page (path : string) (s : Storage) (doc : gmap string Element) : World :=
  mkWorld path s doc [] [] [] 100.

Definition granted_storage : Storage :=
  StorageReady {[ ACCESS_KEY := "true" ]}.
Definition empty_storage : Storage := StorageReady ∅.

(* ===================================================================== *)
(** ** The path classification as the specification words it             *)
(* ===================================================================== *)

(** Gateway patterns and base segment of the specification: a path is
    Gateway when it equals a pattern, or equals it up to one trailing
    slash on either side; the patterns are the two root ones and the same
    two behind the base segment. *)
Definition SPEC_PATTERNS : list string := ["/"; "/index.html"].
Definition BASE_SEGMENT : string := "/trxo".

Definition equal_up_to_trailing_slash (path p : string) : bool :=
  Js.str_eq path p || Js.str_eq (path +:+ "/") p || Js.str_eq path (p +:+ "/").

Definition classify_spec (path : string) : bool :=
  existsb (equal_up_to_trailing_slash path)
          (SPEC_PATTERNS ++ map (String.append BASE_SEGMENT) SPEC_PATTERNS).

(* ===================================================================== *)
(** ** Notions used in the statements                                    *)
(* ===================================================================== *)

(** What [initFormObserver] adds to the observing observers. *)
Definition armed (w : World) : list Observation :=
  match getElementById w "sib-form-container" with
  | Some formContainer => [mkObservation (serial w) (node formContainer)]
  | None => []
  end.

(** The '@'-segments of the trimmed, lower-cased field value, and the
    last of them. *)
Definition segments (v : string) : list string :=
  Js.split "@" (Js.toLowerCase (Js.trim v)).

Definition domain_of (v : string) : string :=
  List.last (segments v) EmptyString.

Definition show_denial (errorLabel : Element) : Element :=
  set_display "block" (set_content DENIAL_TEXT errorLabel).

(** [w'] differs from [w] at most in the email field and the error label. *)
Definition only_feedback_changed (w w' : World) : Prop :=
  (forall sel, sel <> "#EMAIL" -> sel <> "#email-error" ->
     document w' !! sel = document w !! sel)
  /\ w' = with_document (document w') w.

(** The observers that are observing the form container of the page as
    it is now rendered. *)
Definition watching (w : World) : list Observation :=
  match getElementById w "sib-form-container" with
  | Some formContainer =>
      filter (fun o => obs_target o = node formContainer) (observers w)
  | None => []
  end.

(** [w'] has the store and the observers of [w]. *)
Definition untouched (w w' : World) : Prop :=
  localStorage w' = localStorage w /\ observers w' = observers w.

(** The store is readable and holds "true" under the key. *)
Definition flag_set (w : World) : Prop :=
  exists items, localStorage w = StorageReady items
                /\ items !! ACCESS_KEY = Some "true".

Definition submit_entry : Listener := mkListener "submit" cb_validateEmail true.

Definition click_entry : Listener := mkListener "click" cb_validateEmailClick true.

(** [removeEventListener] followed by [addEventListener] of one entry. *)
Definition reattach (l : Listener) (ls : list Listener) : list Listener :=
  let ls' := remove_listener l ls in
  if bool_decide (l ∈ ls') then ls' else ls' ++ [l].

(** A third-party callback. *)
Definition external (cb : Callback) : Prop := exists name, cb = cb_external name.

(** A listener list as the page can have it: no entry twice (the
    platform never adds a duplicate), and beside the entry these scripts
    register on the element only third-party functions. *)
Definition page_listeners (ours : Listener) (ls : list Listener) : Prop :=
  NoDup ls /\ forall l, l ∈ ls -> l = ours \/ external (l_callback l).

(** How many of the callbacks that ran are runs of [processValidation]. *)
Definition validation_runs (ran : list Callback) : nat :=
  length (filter (fun cb => cb = cb_validateEmail \/ cb = cb_validateEmailClick) ran).

(** The form with a third-party "submit" listener registered first, in the
    default (non-capturing) mode. *)
Definition transport_entry : Listener := mkListener "submit" (cb_external "transport") false.

Definition gateway_with_transport (v : string) : gmap string Element :=
  <["#sib-form" := set_listeners [transport_entry] (blank 6)]> (gateway_document v).

(** An element with another [value], as after typing in a field. *)
Definition set_value (v : string) (el : Element) : Element :=
  mkElement (node el) (display el) (border el) (content el) v
            (hasOffsetParent el) (listeners el) (inGateway el).

(** [w'] differs from [w] at most in the elements of the page (and the
    count of objects made): same location, store, observers, timers and
    navigations. *)
Definition page_only (w w' : World) : Prop :=
  pathname w' = pathname w
  /\ localStorage w' = localStorage w
  /\ observers w' = observers w
  /\ timers w' = timers w
  /\ navigations w' = navigations w.

(** The page a [location.replace(url)] leads to: the document [doc] is
    loaded at [url] with the same store; observers, timers and the
    record of navigations start empty. *)
Definition arrive (url : string) (doc : gmap string Element) (w : World) : World :=
  mkWorld url (localStorage w) doc [] [] [] (serial w).

(** A redirect into the content: a replace to one of the two entry paths. *)
Definition to_content (n : Navigation) : Prop :=
  n = NavReplace "/home/" \/ n = NavReplace "/trxo/home/".

(** The operation is the firing of a timer. *)
Definition is_timer (op : Op) : Prop := exists i, op = OpTimer i.

(** [w'] has one navigation more than [w]: a replace to the content
    entry path of the path shown in [w]. *)
Definition to_content_added (w w' : World) : Prop :=
  navigations w' = navigations w ++ [NavReplace (getDashboardPath w)].

(** The entry that the [k]-th function made for the "input" event leaves
    on the email field. *)
Definition input_entry (k : nat) : Listener :=
  mkListener "input" (cb_inputClear k) false.

Definition is_inputClear (cb : Callback) : bool :=
  match cb with
  | cb_inputClear _ => true
  | _ => false
  end.

(** How many of the callbacks that ran are keystroke listeners of
    email-validation.js. *)
Definition keystroke_runs (ran : list Callback) : nat :=
  length (filter (fun cb => is_inputClear cb = true) ran).

(** An element placed inside the gateway container. *)
Definition inside_gateway (el : Element) : Element :=
  mkElement (node el) (display el) (border el) (content el) (value el)
            (hasOffsetParent el) (listeners el) true.

(** The gateway page with the provider's form inside the gateway
    container, as it is once a submission was accepted: the success
    indicator is displayed. *)
Definition gateway_submitted (v : string) : gmap string Element :=
  list_to_map
    [ (".md-header", blank 1); (".md-tabs", blank 2);
      (".gateway-container", blank 3);
      ("#sib-form-container", inside_gateway (blank 4));
      ("#success-message", inside_gateway (blank 5));
      ("#sib-form", inside_gateway (blank 6));
      (SUBMIT_BTN, inside_gateway (blank 7));
      ("#EMAIL", inside_gateway (input_with 8 v));
      ("#email-error", inside_gateway (set_display "none" (blank 9))) ].

(** The document of [w'] is that of [w] after the content of the gateway
    container was replaced by [html]: the container has that content, the
    elements that were inside it are gone, every other element is as it
    was; without a container the document is the same. *)
Definition content_replaced (html : string) (w w' : World) : Prop :=
  match querySelector w ".gateway-container" with
  | Some container =>
      querySelector w' ".gateway-container" = Some (set_content html container)
      /\ forall sel, sel <> ".gateway-container" ->
           document w' !! sel
           = match document w !! sel with
             | Some el => if inGateway el then None else Some el
             | None => None
             end
  | None => document w' = document w
  end.

(** A third-party "submit" listener registered in the capturing mode. *)
Definition capturing_transport : Listener :=
  mkListener "submit" (cb_external "transport") true.

(* ===================================================================== *)
(** ** Facts about the string primitives                                  *)
(* ===================================================================== *)

Lemma str_eq_true (s t : string) : Js.str_eq s t = true <-> s = t.
Proof. unfold Js.str_eq. apply String.eqb_eq. Qed.

Lemma str_eq_false (s t : string) : Js.str_eq s t = false <-> s <> t.
Proof. unfold Js.str_eq. apply String.eqb_neq. Qed.

Lemma startsWith_app (p rest : string) : Js.startsWith (p +:+ rest) p = true.
Proof.
  induction p as [|c p IH]; simpl; [reflexivity|].
  rewrite Ascii.eqb_refl. exact IH.
Qed.

Lemma startsWith_inv (p s : string) :
  Js.startsWith s p = true -> exists rest, s = p +:+ rest.
Proof.
  revert s. induction p as [|c p IH]; intros s H; simpl in *.
  - exists s. reflexivity.
  - destruct s as [|d s]; [discriminate|].
    apply andb_prop in H as [Hc Hs]. apply Ascii.eqb_eq in Hc. subst d.
    destruct (IH _ Hs) as [rest ->]. exists rest. reflexivity.
Qed.

(* ===================================================================== *)
(** ** PathClassifier and redirect targets                                *)
(* ===================================================================== *)

(** X13: the paths [isGatewayPage] accepts are eight: each entry of
    [GATEWAY_PATHS] and each entry with its last character removed.
    Every other path is content. *)
Lemma isGatewayPage_paths (w : World) :
  isGatewayPage w = true <->
  pathname w ∈ ["/trxo/"; "/trxo"; "/trxo/index.html"; "/trxo/index.htm";
                "/"; EmptyString; "/index.html"; "/index.htm"].
Proof.
  unfold isGatewayPage, Js.some, GATEWAY_PATHS. cbn [existsb].
  change (Js.slice "/trxo/" 0 (-1)) with "/trxo".
  change (Js.slice "/trxo/index.html" 0 (-1)) with "/trxo/index.htm".
  change (Js.slice "/" 0 (-1)) with EmptyString.
  change (Js.slice "/index.html" 0 (-1)) with "/index.htm".
  rewrite !orb_true_iff, !str_eq_true, !elem_of_cons, elem_of_nil.
  split; intros H; repeat destruct H as [H|H]; try discriminate H; tauto.
Qed.

(** C2, at the path where the code leaves the rule of the specification:
    [p.slice(0, -1)] drops the last character of a pattern whether or not
    it is a slash, so "/index.htm" is taken for the gateway although it
    equals no pattern up to a trailing slash. *)
Theorem isGatewayPage_index_htm (s : Storage) (doc : gmap string Element) :
  isGatewayPage (page "/index.htm" s doc) = true
  /\ classify_spec "/index.htm" = false
  /\ isGatewayPage (page "/trxo/index.htm" s doc) = true
  /\ classify_spec "/trxo/index.htm" = false.
Proof. repeat split; vm_compute; reflexivity. Qed.

(** On the paths the specification lists, the code and the rule agree. *)
Lemma isGatewayPage_listed (s : Storage) (doc : gmap string Element) :
  map (fun p => isGatewayPage (page p s doc))
      ["/"; "/index.html"; "/trxo/"; "/trxo/index.html";
       "/home/"; "/trxo/home/"; "/anything-else/"]
  = [true; true; true; true; false; false; false]
  /\ map classify_spec
      ["/"; "/index.html"; "/trxo/"; "/trxo/index.html";
       "/home/"; "/trxo/home/"; "/anything-else/"]
  = [true; true; true; true; false; false; false].
Proof. split; vm_compute; reflexivity. Qed.

(** C10: the deployment prefix is a raw test on the first five characters
    of the path.  Every path that begins with "/trxo" gets the prefixed
    targets, whatever follows; every other path gets the root targets. *)
Theorem redirect_targets_by_raw_prefix (w : World) :
  ((exists rest, pathname w = "/trxo" +:+ rest) ->
     getDashboardPath w = "/trxo/home/" /\ getGatewayPath w = "/trxo/")
  /\ ((forall rest, pathname w <> "/trxo" +:+ rest) ->
     getDashboardPath w = "/home/" /\ getGatewayPath w = "/").
Proof.
  unfold getDashboardPath, getGatewayPath. split.
  - intros [rest ->]. rewrite startsWith_app. split; reflexivity.
  - intros Hne. destruct (Js.startsWith (pathname w) "/trxo") eqn:E.
    + apply startsWith_inv in E as [rest E]. destruct (Hne rest E).
    + split; reflexivity.
Qed.

Lemma redirect_targets_trxonomy :
  getDashboardPath (page "/trxonomy/page" empty_storage ∅) = "/trxo/home/"
  /\ getGatewayPath (page "/trxonomy/page" empty_storage ∅) = "/trxo/".
Proof.
  apply (proj1 (redirect_targets_by_raw_prefix (page "/trxonomy/page" empty_storage ∅))).
  exists "nomy/page". reflexivity.
Defined.

(* ===================================================================== *)
(** ** AccessStateStore: the read of the flag                             *)
(* ===================================================================== *)

Lemma hasAccess_ready (w : World) (items : gmap string string) :
  localStorage w = StorageReady items ->
  hasAccess w = Ok (bool_decide (items !! ACCESS_KEY = Some "true")).
Proof.
  intros H. unfold hasAccess, getItem. rewrite H.
  destruct (items !! ACCESS_KEY) as [v|] eqn:E.
  - destruct (Js.str_eq v "true") eqn:Ev.
    + apply str_eq_true in Ev. subst v. rewrite bool_decide_eq_true_2; reflexivity.
    + apply str_eq_false in Ev. rewrite bool_decide_eq_false_2; [reflexivity|].
      intros [= ->]. apply Ev. reflexivity.
  - rewrite bool_decide_eq_false_2; [reflexivity | discriminate].
Qed.

Lemma hasAccess_disabled (w : World) :
  localStorage w = StorageDisabled -> hasAccess w = Throw SecurityError.
Proof. intros H. unfold hasAccess, getItem. rewrite H. reflexivity. Qed.

(** A store that is out of quota is read as a writable one is. *)
Lemma hasAccess_full (w : World) (items : gmap string string) :
  localStorage w = StorageFull items ->
  hasAccess w = Ok (bool_decide (items !! ACCESS_KEY = Some "true")).
Proof.
  intros H. unfold hasAccess, getItem. rewrite H.
  destruct (items !! ACCESS_KEY) as [v|] eqn:E.
  - destruct (Js.str_eq v "true") eqn:Ev.
    + apply str_eq_true in Ev. subst v. rewrite bool_decide_eq_true_2; reflexivity.
    + apply str_eq_false in Ev. rewrite bool_decide_eq_false_2; [reflexivity|].
      intros [= ->]. apply Ev. reflexivity.
  - rewrite bool_decide_eq_false_2; [reflexivity | discriminate].
Qed.




(* ===================================================================== *)
(** ** RedirectController                                                 *)
(* ===================================================================== *)

Lemma initFormObserver_observers (w : World) :
  observers (initFormObserver w) = (observers w ++ armed w)%list.
Proof.
  unfold initFormObserver, armed, getElementById. simpl.
  destruct (document w !! _); simpl; [reflexivity | rewrite app_nil_r; reflexivity].
Qed.

Lemma initFormObserver_rest (w : World) :
  pathname (initFormObserver w) = pathname w
  /\ localStorage (initFormObserver w) = localStorage w
  /\ document (initFormObserver w) = document w
  /\ timers (initFormObserver w) = timers w
  /\ navigations (initFormObserver w) = navigations w
  /\ serial (initFormObserver w) = S (serial w).
Proof.
  unfold initFormObserver, getElementById. simpl.
  destruct (document w !! _); simpl; repeat split; reflexivity.
Qed.



(* ===================================================================== *)
(** ** EmailDomainValidator: one interception                             *)
(* ===================================================================== *)

Lemma includes_elem_of (arr : list string) (x : string) :
  Js.includes arr x = true <-> x ∈ arr.
Proof.
  unfold Js.includes. induction arr as [|a arr IH]; simpl.
  - rewrite elem_of_nil. split; [discriminate | tauto].
  - rewrite orb_true_iff, str_eq_true, IH, elem_of_cons. tauto.
Qed.

Lemma feedback_update (w : World) (f g : Element -> Element) (emailInput : Element) :
  getElementById w "EMAIL" = Some emailInput ->
  let w' := update "#EMAIL" g (update "#email-error" f w) in
  getElementById w' "EMAIL" = Some (g emailInput)
  /\ getElementById w' "email-error" = f <$> getElementById w "email-error"
  /\ only_feedback_changed w w'.
Proof.
  unfold getElementById, update, only_feedback_changed. simpl. intros H.
  change (document w !! "#EMAIL" = Some emailInput) in H.
  repeat split.
  - rewrite lookup_alter_eq, lookup_alter_ne by discriminate. rewrite H. reflexivity.
  - rewrite lookup_alter_ne by discriminate. apply lookup_alter_eq.
  - intros sel H1 H2. rewrite !lookup_alter_ne by congruence. reflexivity.
Qed.

(** C3: the four outcomes of an interception.  Without the email field,
    or with fewer than two '@'-segments, the submission goes on and
    nothing is touched.  With a denied last segment the event is
    cancelled and its immediate propagation stopped, the error label
    (where there is one) shows the denial text and the field gets the
    invalid border.  Otherwise the event is left alone, the label is
    hidden and the field gets the valid border.  The click handler does
    what the submit handler does. *)
Theorem validateEmail_outcomes (w : World) (e : Event) :
  validateEmailClick w e = validateEmail w e
  /\ (getElementById w "EMAIL" = None -> validateEmail w e = (w, e))
  /\ (forall emailInput, getElementById w "EMAIL" = Some emailInput ->
      (length (segments (value emailInput)) < 2 -> validateEmail w e = (w, e))
      /\ (2 <= length (segments (value emailInput)) ->
          domain_of (value emailInput) ∈ blockedDomains ->
          exists w', validateEmail w e = (w', mkEvent (e_type e) true true)
            /\ getElementById w' "EMAIL" = Some (set_border INVALID_BORDER emailInput)
            /\ getElementById w' "email-error"
               = show_denial <$> getElementById w "email-error"
            /\ only_feedback_changed w w')
      /\ (2 <= length (segments (value emailInput)) ->
          domain_of (value emailInput) ∉ blockedDomains ->
          exists w', validateEmail w e = (w', e)
            /\ getElementById w' "EMAIL" = Some (set_border VALID_BORDER emailInput)
            /\ getElementById w' "email-error"
               = set_display "none" <$> getElementById w "email-error"
            /\ only_feedback_changed w w')).
Proof.
  split; [reflexivity|]. unfold validateEmail, processValidation. split.
  - intros ->. reflexivity.
  - intros emailInput Hin. rewrite Hin.
    fold (segments (value emailInput)).
    change (List.last (segments (value emailInput)) EmptyString)
      with (domain_of (value emailInput)).
    repeat split.
    + intros Hlt. apply Nat.ltb_lt in Hlt. rewrite Hlt. reflexivity.
    + intros Hge Hmem. apply Nat.ltb_ge in Hge. rewrite Hge.
      apply includes_elem_of in Hmem. rewrite Hmem. simpl.
      eexists. split; [reflexivity|].
      apply (feedback_update w show_denial (set_border INVALID_BORDER) _ Hin).
    + intros Hge Hmem. apply Nat.ltb_ge in Hge. rewrite Hge.
      destruct (Js.includes blockedDomains (domain_of (value emailInput))) eqn:E.
      * apply includes_elem_of in E. destruct (Hmem E).
      * simpl. eexists. split; [reflexivity|].
        apply (feedback_update w (set_display "none") (set_border VALID_BORDER) _ Hin).
Qed.

Lemma validateEmail_outcomes_witness :
  exists w',
    validateEmail (page "/" empty_storage (gateway_document " User@Gmail.COM "))
                  (mkEvent "submit" false false)
    = (w', mkEvent "submit" true true)
    /\ getElementById w' "EMAIL"
       = Some (set_border INVALID_BORDER (input_with 8 " User@Gmail.COM "))
    /\ getElementById w' "email-error"
       = show_denial <$> getElementById
           (page "/" empty_storage (gateway_document " User@Gmail.COM ")) "email-error"
    /\ only_feedback_changed
         (page "/" empty_storage (gateway_document " User@Gmail.COM ")) w'.
Proof.
  destruct (validateEmail_outcomes
              (page "/" empty_storage (gateway_document " User@Gmail.COM "))
              (mkEvent "submit" false false)) as (_ & _ & H).
  destruct (H (input_with 8 " User@Gmail.COM ") eq_refl) as (_ & Hdeny & _).
  apply Hdeny.
  - vm_compute. lia.
  - apply includes_elem_of. vm_compute. reflexivity.
Defined.

(* ===================================================================== *)
(** ** FormSubmissionWatcher                                              *)
(* ===================================================================== *)

Lemma successVisible_true (w : World) (successMsg : Element) :
  getElementById w "success-message" = Some successMsg ->
  display successMsg <> "none" ->
  hasOffsetParent successMsg = true ->
  successVisible w = true.
Proof.
  intros H Hd Ho. unfold successVisible. rewrite H, Ho.
  apply str_eq_false in Hd. rewrite Hd. reflexivity.
Qed.

(** The assignment to [innerHTML] touches the document only. *)
Lemma replaceGatewayContent_rest (html : string) (w : World) :
  pathname (replaceGatewayContent html w) = pathname w
  /\ localStorage (replaceGatewayContent html w) = localStorage w
  /\ observers (replaceGatewayContent html w) = observers w
  /\ timers (replaceGatewayContent html w) = timers w
  /\ navigations (replaceGatewayContent html w) = navigations w
  /\ serial (replaceGatewayContent html w) = serial w.
Proof.
  unfold replaceGatewayContent.
  destruct (querySelector w ".gateway-container"); repeat split.
Qed.

Lemma replaceGatewayContent_store (html : string) (s : Storage) (w : World) :
  document (replaceGatewayContent html (with_storage s w))
  = document (replaceGatewayContent html w).
Proof.
  unfold replaceGatewayContent, querySelector. simpl.
  destruct (document w !! ".gateway-container"); reflexivity.
Qed.

(** The callback on a visible success indicator and a writable store. *)
Lemma observerCallback_effects (w : World) (items : gmap string string)
    (successMsg : Element) :
  localStorage w = StorageReady items ->
  getElementById w "success-message" = Some successMsg ->
  display successMsg <> "none" ->
  hasOffsetParent successMsg = true ->
  exists w', observerCallback w = Ok w'
    /\ localStorage w' = StorageReady (<[ACCESS_KEY := "true"]> items)
    /\ hasAccess w' = Ok true
    /\ document w' = document (replaceGatewayContent SUCCESS_HTML w)
    /\ timers w' = (timers w ++ [mkTimer 1500 ta_redirectToDashboard])%list
    /\ navigations w' = navigations w
    /\ observers w' = observers w
    /\ pathname w' = pathname w
    /\ serial w' = serial w
    /\ timers (fireTimer (length (timers w)) w') = timers w
    /\ navigations (fireTimer (length (timers w)) w')
       = (navigations w ++ [NavReplace (getDashboardPath w)])%list.
Proof.
  intros Hs Hm Hd Ho. unfold observerCallback.
  rewrite (successVisible_true _ _ Hm Hd Ho). unfold setItem. rewrite Hs.
  set (w1 := with_storage (StorageReady (<[ACCESS_KEY := "true"]> items)) w).
  set (w2 := replaceGatewayContent SUCCESS_HTML w1).
  destruct (replaceGatewayContent_rest SUCCESS_HTML w1)
    as (Hp2 & Hs2 & Ho2 & Ht2 & Hn2 & Hr2).
  fold w2 in Hp2, Hs2, Ho2, Ht2, Hn2, Hr2. cbn [w1 with_storage pathname localStorage
    observers timers navigations serial] in Hp2, Hs2, Ho2, Ht2, Hn2, Hr2.
  assert (Hd2 : document w2 = document (replaceGatewayContent SUCCESS_HTML w))
    by apply replaceGatewayContent_store.
  clearbody w2. clear w1.
  eexists. split; [reflexivity|].
  unfold setTimeout, fireTimer.
  cbn [localStorage document timers navigations observers pathname serial with_timers].
  rewrite Ht2.
  assert (Hl : (timers w ++ [mkTimer 1500 ta_redirectToDashboard]) !! length (timers w)
               = Some (mkTimer 1500 ta_redirectToDashboard)).
  { rewrite lookup_app_r by lia. rewrite Nat.sub_diag. reflexivity. }
  rewrite Hl.
  assert (Hdel : delete (length (timers w))
                   (timers w ++ [mkTimer 1500 ta_redirectToDashboard]) = timers w).
  { clear. induction (timers w) as [|t ts IH]; simpl; [reflexivity|].
    f_equal. exact IH. }
  rewrite Hdel.
  cbn [t_action runTimerAction location_replace with_navigations with_timers timers
       navigations].
  split; [exact Hs2|]. split.
  { unfold hasAccess, getItem, with_timers. cbn [localStorage].
    rewrite Hs2, lookup_insert_eq. reflexivity. }
  split; [exact Hd2|]. split; [reflexivity|]. split; [exact Hn2|].
  split; [exact Ho2|]. split; [exact Hp2|]. split; [exact Hr2|].
  split; [reflexivity|].
  rewrite Hn2. unfold getDashboardPath, with_timers. cbn [pathname].
  rewrite Hp2. reflexivity.
Qed.

(** A notification that does not find the indicator visible does nothing. *)
Lemma observerCallback_idle (w : World) :
  successVisible w = false -> observerCallback w = Ok w.
Proof. intros H. unfold observerCallback. rewrite H. reflexivity. Qed.

Lemma iter_initFormObserver (n : nat) (w : World) :
  document (Nat.iter n initFormObserver w) = document w
  /\ serial (Nat.iter n initFormObserver w) = serial w + n
  /\ localStorage (Nat.iter n initFormObserver w) = localStorage w.
Proof.
  induction n as [|n (IHd & IHs & IHl)]; simpl.
  - rewrite Nat.add_0_r. repeat split; reflexivity.
  - destruct (initFormObserver_rest (Nat.iter n initFormObserver w))
      as (_ & Hl & Hd & _ & _ & Hs).
    rewrite Hd, Hs, Hl, IHd, IHs, IHl. repeat split; lia.
Qed.

(* ===================================================================== *)
(** ** The store and the observers over the life of the page             *)
(* ===================================================================== *)

Lemma untouched_refl (w : World) : untouched w w.
Proof. split; reflexivity. Qed.

Lemma untouched_trans (w1 w2 w3 : World) :
  untouched w1 w2 -> untouched w2 w3 -> untouched w1 w3.
Proof. unfold untouched. intros [? ?] [? ?]. split; congruence. Qed.

Lemma processValidation_untouched (w : World) : untouched w (processValidation w).2.
Proof.
  unfold processValidation.
  destruct (getElementById w "EMAIL"); [|apply untouched_refl].
  destruct (Nat.ltb _ _); [apply untouched_refl|].
  destruct (Js.includes _ _); split; reflexivity.
Qed.

Lemma call_untouched (cb : Callback) (this : string) (w : World) (e : Event) :
  untouched w (call cb this w e).1.
Proof.
  destruct cb; simpl; try (split; reflexivity).
  - unfold validateEmail. pose proof (processValidation_untouched w) as H.
    destruct (processValidation w) as [[] w']; exact H.
  - unfold validateEmailClick. pose proof (processValidation_untouched w) as H.
    destruct (processValidation w) as [[] w']; exact H.
Qed.

Lemma invoke_untouched (ls : list Listener) (this : string) (w : World) (e : Event) :
  untouched w (invoke ls this w e).1.1.
Proof.
  revert w e. induction ls as [|l ls IH]; intros w e; simpl; [apply untouched_refl|].
  destruct (immediateStopped e); [apply untouched_refl|].
  pose proof (call_untouched (l_callback l) this w e) as Hc.
  destruct (call (l_callback l) this w e) as [w1 e1].
  pose proof (IH w1 e1) as Hi.
  destruct (invoke ls this w1 e1) as [[w2 e2] ran].
  simpl in *. apply (untouched_trans _ _ _ Hc Hi).
Qed.

Lemma dispatchEvent_untouched (target type : string) (w : World) :
  untouched w (dispatchEvent target type w).1.1.
Proof.
  unfold dispatchEvent. destruct (querySelector w target); [|apply untouched_refl].
  apply invoke_untouched.
Qed.

Lemma initEmailValidation_untouched (w : World) : untouched w (initEmailValidation w).
Proof.
  unfold initEmailValidation.
  destruct (getElementById w "sib-form"); [|apply untouched_refl].
  destruct (querySelector _ SUBMIT_BTN);
    match goal with |- context [getElementById ?x "EMAIL"] =>
      destruct (getElementById x "EMAIL") end; split; reflexivity.
Qed.

Lemma fireTimer_untouched (i : nat) (w : World) : untouched w (fireTimer i w).
Proof.
  unfold fireTimer. destruct (timers w !! i) as [[d []]|]; simpl;
    try (split; reflexivity).
  apply (untouched_trans _ (with_timers (delete i (timers w)) w));
    [split; reflexivity | apply initEmailValidation_untouched].
Qed.

Lemma clickSubmit_untouched (w : World) : untouched w (clickSubmit w).1.
Proof.
  unfold clickSubmit.
  pose proof (dispatchEvent_untouched SUBMIT_BTN "click" w) as H.
  destruct (dispatchEvent SUBMIT_BTN "click" w) as [[w1 e] ran]. simpl in H.
  destruct (defaultPrevented e); [exact H|].
  pose proof (dispatchEvent_untouched "#sib-form" "submit" w1) as H'.
  destruct (dispatchEvent "#sib-form" "submit" w1) as [[w2 e2] ran2]. simpl in *.
  apply (untouched_trans _ _ _ H H').
Qed.

(** [enforceAccess] never writes the store, and it arms an observer only
    after it has read the store. *)
Lemma enforceAccess_frame (w w' : World) :
  enforceAccess w = Ok w' ->
  localStorage w' = localStorage w
  /\ localStorage w <> StorageDisabled
  /\ exists more, observers w' = observers w ++ more.
Proof.
  unfold enforceAccess, hasAccess, getItem.
  destruct (localStorage w) as [|items|items] eqn:Hs; [discriminate| |].
  all: assert (Hready : localStorage w <> StorageDisabled)
    by (rewrite Hs; discriminate).
  all: rewrite <- Hs.
  all: destruct (items !! ACCESS_KEY) as [v|]; [destruct (Js.str_eq v "true")|];
    destruct (isGatewayPage w); simpl; intros [= <-]; simpl;
    try (split; [reflexivity | split; [exact Hready | exists []; symmetry; apply app_nil_r]]).
  all: unfold update; simpl;
    destruct (initFormObserver_rest w) as (_ & Hl & _);
    rewrite initFormObserver_observers, Hl;
    (split; [reflexivity | split; [exact Hready | exists (armed w); reflexivity]]).
Qed.

Lemma observerCallback_frame (w w' : World) :
  observerCallback w = Ok w' ->
  observers w' = observers w
  /\ (localStorage w' = localStorage w
      \/ (successVisible w = true
          /\ exists items, localStorage w = StorageReady items
               /\ localStorage w' = StorageReady (<[ACCESS_KEY := "true"]> items))).
Proof.
  unfold observerCallback, setItem. destruct (successVisible w).
  - destruct (localStorage w) as [|items|items] eqn:E; [discriminate| |discriminate].
    intros [= <-].
    destruct (replaceGatewayContent_rest SUCCESS_HTML
                (with_storage (StorageReady (<[ACCESS_KEY := "true"]> items)) w))
      as (_ & Hst & Hob & _).
    unfold setTimeout, with_timers. cbn [observers localStorage].
    split; [exact Hob|].
    right. split; [reflexivity|]. exists items. split; [reflexivity|exact Hst].
  - intros [= <-]. split; [reflexivity|]. left. reflexivity.
Qed.

(** Every handler leaves the store as it was, except the observer's
    callback on a visible success indicator, which writes "true" under
    the access key. *)
Lemma step_storage (op : Op) (w w' : World) :
  step op w = Ok w' ->
  localStorage w' = localStorage w
  \/ ((exists i, op = OpNotify i) /\ successVisible w = true
      /\ exists items, localStorage w = StorageReady items
           /\ localStorage w' = StorageReady (<[ACCESS_KEY := "true"]> items)).
Proof.
  destruct op; simpl.
  - intros [= <-]. left. reflexivity.
  - intros H. left. apply (enforceAccess_frame _ _ H).
  - intros [= <-]. left. reflexivity.
  - intros [= <-]. left. apply initEmailValidation_untouched.
  - destruct (observers w !! i).
    + intros H. destruct (observerCallback_frame _ _ H) as [_ [H1 | [H1 H2]]].
      * left. exact H1.
      * right. split; [exists i; reflexivity|]. split; assumption.
    + intros [= <-]. left. reflexivity.
  - intros [= <-]. left. apply fireTimer_untouched.
  - intros [= <-]. left. apply dispatchEvent_untouched.
  - intros [= <-]. left. apply clickSubmit_untouched.
  - intros [= <-]. left. apply dispatchEvent_untouched.
Qed.

(** Observers come from [enforceAccess] alone. *)
Lemma step_observers (op : Op) (w w' : World) :
  step op w = Ok w' ->
  observers w' = observers w
  \/ (op = OpEnforceAccess /\ localStorage w <> StorageDisabled).
Proof.
  destruct op; simpl.
  - intros [= <-]. left. reflexivity.
  - intros H. right. split; [reflexivity | apply (enforceAccess_frame _ _ H)].
  - intros [= <-]. left. reflexivity.
  - intros [= <-]. left. apply initEmailValidation_untouched.
  - destruct (observers w !! i).
    + intros H. left. apply (observerCallback_frame _ _ H).
    + intros [= <-]. left. reflexivity.
  - intros [= <-]. left. apply fireTimer_untouched.
  - intros [= <-]. left. apply dispatchEvent_untouched.
  - intros [= <-]. left. apply clickSubmit_untouched.
  - intros [= <-]. left. apply dispatchEvent_untouched.
Qed.

(** No handler takes an observer off the list. *)
Lemma after_observers_grow (op : Op) (w : World) :
  exists more, observers (after op w) = observers w ++ more.
Proof.
  unfold after. destruct (step op w) as [w'|] eqn:E.
  - destruct (step_observers _ _ _ E) as [Ho | [-> _]].
    + exists []. rewrite Ho, app_nil_r. reflexivity.
    + apply (enforceAccess_frame _ _ E).
  - exists []. rewrite app_nil_r. reflexivity.
Qed.

Lemma run_observers_grow (ops : list Op) (w : World) :
  exists more, observers (run ops w) = observers w ++ more.
Proof.
  revert w. unfold run. induction ops as [|op ops IH]; intros w; simpl.
  - exists []. rewrite app_nil_r. reflexivity.
  - destruct (after_observers_grow op w) as [m1 H1].
    destruct (IH (after op w)) as [m2 H2].
    exists (m1 ++ m2). rewrite H2, H1, app_assoc. reflexivity.
Qed.

(** C5 as stated fails: two runs of [enforceAccess] on one render of the
    gateway (the script calls it at once and again on DOMContentLoaded)
    leave two observers observing the same container. *)
Lemma initFormObserver_twice_two_watchers :
  watching (run [OpEnforceAccess; OpEnforceAccess]
              (page "/" empty_storage (gateway_document EmptyString)))
  = [mkObservation 100 4; mkObservation 101 4]
  /\ ~ (length (watching (Nat.iter 2 initFormObserver
                  (page "/" empty_storage (gateway_document EmptyString)))) <= 1).
Proof. split; [vm_compute; reflexivity | vm_compute; lia]. Qed.

Lemma filter_same_target (c : nat) (f : nat -> nat) (l : list nat) :
  length (filter (fun o => obs_target o = c) (map (fun i => mkObservation (f i) c) l))
  = length l.
Proof.
  induction l as [|i l IH]; [reflexivity|].
  cbn [map]. rewrite filter_cons_True by reflexivity. simpl. f_equal. exact IH.
Qed.

(** C5, amended: every call makes a new observer and, the form container
    being present, starts it observing that container; the observers of
    earlier calls stay in place, none is replaced or disconnected.  After
    [n] calls on one render, [n] more observers watch its container; and
    whatever handlers run, re-renders included, the observers that were
    observing stay on the list. *)
Theorem initFormObserver_accumulates (n : nat) (w : World) (formContainer : Element) :
  getElementById w "sib-form-container" = Some formContainer ->
  observers (Nat.iter n initFormObserver w)
  = observers w
    ++ map (fun i => mkObservation (serial w + i) (node formContainer)) (seq 0 n)
  /\ length (watching (Nat.iter n initFormObserver w)) = length (watching w) + n
  /\ (forall ops, exists more, observers (run ops w) = observers w ++ more).
Proof.
  intros Hc.
  assert (Hobs : forall k, observers (Nat.iter k initFormObserver w)
     = observers w
       ++ map (fun i => mkObservation (serial w + i) (node formContainer)) (seq 0 k)).
  { induction k as [|k IH]; [simpl; rewrite app_nil_r; reflexivity|].
    change (Nat.iter (S k) initFormObserver w)
      with (initFormObserver (Nat.iter k initFormObserver w)).
    rewrite initFormObserver_observers, IH.
    destruct (iter_initFormObserver k w) as (Hd & Hs & _).
    unfold armed, getElementById in *. rewrite Hd, Hc, Hs.
    rewrite seq_S, map_app, app_assoc. reflexivity. }
  split; [apply Hobs|]. split; [|intros ops; apply run_observers_grow].
  unfold watching, getElementById in *.
  destruct (iter_initFormObserver n w) as (Hd & _ & _).
  rewrite Hd, Hc, Hobs, filter_app, length_app. f_equal.
  rewrite filter_same_target. apply length_seq.
Qed.

Lemma initFormObserver_accumulates_witness :
  observers (Nat.iter 3 initFormObserver
               (page "/" empty_storage (gateway_document EmptyString)))
  = [mkObservation 100 4; mkObservation 101 4; mkObservation 102 4]
  /\ length (watching (Nat.iter 3 initFormObserver
               (page "/" empty_storage (gateway_document EmptyString)))) = 3.
Proof.
  destruct (initFormObserver_accumulates 3
              (page "/" empty_storage (gateway_document EmptyString)) (blank 4) eq_refl)
    as (Hobs & Hlen & _).
  split; [exact Hobs | exact Hlen].
Defined.

Lemma replaceGatewayContent_replaced (html : string) (w : World) :
  content_replaced html w (replaceGatewayContent html w).
Proof.
  unfold content_replaced, replaceGatewayContent, querySelector.
  destruct (document w !! ".gateway-container") as [container|] eqn:Hc;
    [|reflexivity].
  cbn [document with_document]. split.
  - rewrite lookup_alter_eq.
    rewrite (proj2 (map_lookup_filter_Some _ (document w) ".gateway-container" container)).
    + reflexivity.
    + split; [exact Hc | left; reflexivity].
  - intros sel Hsel. rewrite lookup_alter_ne by congruence.
    destruct (document w !! sel) as [el|] eqn:He.
    + destruct (inGateway el) eqn:Hin.
      * apply map_lookup_filter_None. right. intros el' He' [H|H].
        -- exact (Hsel H).
        -- rewrite He in He'. injection He' as <-. simpl in H. congruence.
      * apply map_lookup_filter_Some. split; [exact He | right; exact Hin].
    + apply map_lookup_filter_None. left. exact He.
Qed.

(** C6 as stated fails: the write of the flag can throw where the read
    of [enforceAccess] did not.  With a store that is out of quota, the
    gateway arms its observer; the success indicator is then displayed
    and laid out; the notified callback ends in the exception of
    [setItem], and none of the three effects takes place: the flag is
    not set, the gateway container keeps its content and the form, and no
    redirect is scheduled. *)
Lemma watcher_write_throws :
  observers (run [OpEnforceAccess; OpRender "/trxo/" (gateway_submitted "a@b.example")]
                 (page "/trxo/" (StorageFull ∅) (gateway_document "a@b.example")))
  = [mkObservation 100 4]
  /\ successVisible
       (run [OpEnforceAccess; OpRender "/trxo/" (gateway_submitted "a@b.example")]
            (page "/trxo/" (StorageFull ∅) (gateway_document "a@b.example")))
     = true
  /\ step (OpNotify 0)
       (run [OpEnforceAccess; OpRender "/trxo/" (gateway_submitted "a@b.example")]
            (page "/trxo/" (StorageFull ∅) (gateway_document "a@b.example")))
     = Throw QuotaExceededError
  /\ hasAccess
       (run [OpEnforceAccess; OpRender "/trxo/" (gateway_submitted "a@b.example");
             OpNotify 0]
            (page "/trxo/" (StorageFull ∅) (gateway_document "a@b.example")))
     = Ok false
  /\ document
       (run [OpEnforceAccess; OpRender "/trxo/" (gateway_submitted "a@b.example");
             OpNotify 0]
            (page "/trxo/" (StorageFull ∅) (gateway_document "a@b.example")))
     = gateway_submitted "a@b.example"
  /\ timers
       (run [OpEnforceAccess; OpRender "/trxo/" (gateway_submitted "a@b.example");
             OpNotify 0]
            (page "/trxo/" (StorageFull ∅) (gateway_document "a@b.example")))
     = []
  /\ observerCallback
       (page "/trxo/" StorageDisabled (gateway_submitted "a@b.example"))
     = Throw SecurityError.
Proof.
  repeat split; vm_compute; reflexivity.
Qed.

(** C6, amended: whenever a notified observer finds the success indicator
    displayed and laid out, the outcome is decided by the write of the
    flag.  On a store that takes the write, the notification has exactly
    three effects: the flag is stored as "true"; the content of the
    gateway container (where there is one) becomes the confirmation,
    which removes the elements that were inside the container and leaves
    every other element as it was; and one timer of 1500 ms is added,
    which, when it fires, leaves the pending list and replaces the
    location by the content entry path.  Nothing navigates before, and
    nothing else changes.  On a store that is disabled or out of quota the
    notification ends in the exception of the write, before the other two
    effects. *)
Theorem watcher_grants_access (w : World) (i : nat) (o : Observation)
    (successMsg : Element) :
  observers w !! i = Some o ->
  getElementById w "success-message" = Some successMsg ->
  display successMsg <> "none" ->
  hasOffsetParent successMsg = true ->
  (forall items, localStorage w = StorageReady items ->
     exists w',
       step (OpNotify i) w = Ok w'
       /\ localStorage w' = StorageReady (<[ACCESS_KEY := "true"]> items)
       /\ hasAccess w' = Ok true
       /\ content_replaced SUCCESS_HTML w w'
       /\ timers w' = timers w ++ [mkTimer 1500 ta_redirectToDashboard]
       /\ navigations w' = navigations w
       /\ observers w' = observers w
       /\ pathname w' = pathname w
       /\ serial w' = serial w
       /\ timers (fireTimer (length (timers w)) w') = timers w
       /\ navigations (fireTimer (length (timers w)) w')
          = navigations w ++ [NavReplace (getDashboardPath w)])
  /\ (localStorage w = StorageDisabled ->
        step (OpNotify i) w = Throw SecurityError)
  /\ (forall items, localStorage w = StorageFull items ->
        step (OpNotify i) w = Throw QuotaExceededError).
Proof.
  intros Ho Hm Hd Hp. cbn [step]. rewrite Ho. split; [|split].
  - intros items Hs.
    destruct (observerCallback_effects _ _ _ Hs Hm Hd Hp)
      as (w' & Hcb & Hs' & Ha & Hdoc & Hrest).
    exists w'. split; [exact Hcb|]. split; [exact Hs'|]. split; [exact Ha|].
    split; [|exact Hrest].
    pose proof (replaceGatewayContent_replaced SUCCESS_HTML w) as Hr.
    unfold content_replaced, querySelector in *. rewrite Hdoc. exact Hr.
  - intros Hs. unfold observerCallback, setItem.
    rewrite (successVisible_true _ _ Hm Hd Hp), Hs. reflexivity.
  - intros items Hs. unfold observerCallback, setItem.
    rewrite (successVisible_true _ _ Hm Hd Hp), Hs. reflexivity.
Qed.

Lemma watcher_grants_access_witness :
  exists w',
    step (OpNotify 0)
      (run [OpEnforceAccess; OpRender "/trxo/" (gateway_submitted "a@b.example")]
           (page "/trxo/" empty_storage (gateway_document "a@b.example")))
    = Ok w'
    /\ localStorage w' = StorageReady {[ ACCESS_KEY := "true" ]}
    /\ hasAccess w' = Ok true
    /\ document w'
       = list_to_map
           [ (".md-header", blank 1); (".md-tabs", blank 2);
             (".gateway-container", set_content SUCCESS_HTML (blank 3)) ]
    /\ timers w' = [mkTimer 1500 ta_redirectToDashboard]
    /\ navigations w' = []
    /\ observers w' = [mkObservation 100 4]
    /\ pathname w' = "/trxo/"
    /\ serial w' = 101
    /\ timers (fireTimer 0 w') = []
    /\ navigations (fireTimer 0 w') = [NavReplace "/trxo/home/"].
Proof.
  destruct (proj1 (watcher_grants_access
                     (run [OpEnforceAccess;
                           OpRender "/trxo/" (gateway_submitted "a@b.example")]
                          (page "/trxo/" empty_storage (gateway_document "a@b.example")))
                     0 (mkObservation 100 4) (inside_gateway (blank 5))
                     eq_refl eq_refl ltac:(discriminate) eq_refl)
                  ∅ eq_refl)
    as (w' & Hstep & Hs & Ha & _ & Ht & Hn & Ho & Hp & Hser & Hft & Hfn).
  exists w'. injection Hstep as <-. repeat split.
Defined.

Lemma after_flag_set (op : Op) (w : World) : flag_set w -> flag_set (after op w).
Proof.
  intros (items & Hs & Hk). unfold after.
  destruct (step op w) as [w'|] eqn:E; [|exists items; split; assumption].
  destruct (step_storage _ _ _ E) as [H | (_ & _ & items' & H1 & H2)].
  - exists items. rewrite H. split; assumption.
  - exists (<[ACCESS_KEY := "true"]> items'). split; [exact H2|].
    apply lookup_insert_eq.
Qed.

(** C9: the flag is only ever written as "true" and never taken back.
    Each handler leaves the store alone, except the observer's callback
    on a visible success indicator, which stores "true" under the access
    key; so from a state where the flag is set, whatever handlers run
    afterwards, it is still set and [enforceAccess] reads access. *)
Theorem access_flag_monotone :
  (forall op w w', step op w = Ok w' ->
     localStorage w' = localStorage w
     \/ ((exists i, op = OpNotify i) /\ successVisible w = true
         /\ exists items, localStorage w = StorageReady items
              /\ localStorage w' = StorageReady (<[ACCESS_KEY := "true"]> items)))
  /\ (forall ops w, flag_set w ->
        flag_set (run ops w) /\ hasAccess (run ops w) = Ok true).
Proof.
  split; [exact step_storage|].
  intros ops w H.
  assert (Hrun : flag_set (run ops w)).
  { revert w H. unfold run. induction ops as [|op ops IH]; intros w H; simpl.
    - exact H.
    - apply IH. apply after_flag_set. exact H. }
  split; [exact Hrun|].
  destruct Hrun as (items & Hs & Hk).
  rewrite (hasAccess_ready _ _ Hs). rewrite bool_decide_eq_true_2; [reflexivity | exact Hk].
Qed.

Lemma access_flag_monotone_witness :
  flag_set (run [OpEnforceAccess; OpNotify 0; OpTimer 0; OpSubmit; OpClick; OpInput;
                 OpInitEmailValidation; OpRender "/home/" ∅; OpEnforceAccess]
                (page "/" granted_storage (gateway_document "user@gmail.com")))
  /\ hasAccess (run [OpEnforceAccess; OpNotify 0; OpTimer 0; OpSubmit; OpClick; OpInput;
                     OpInitEmailValidation; OpRender "/home/" ∅; OpEnforceAccess]
                    (page "/" granted_storage (gateway_document "user@gmail.com")))
     = Ok true.
Proof.
  apply (proj2 access_flag_monotone).
  exists {[ ACCESS_KEY := "true" ]}. split; reflexivity.
Defined.

(* ===================================================================== *)
(** ** EmailDomainValidator: attaching                                    *)
(* ===================================================================== *)

Lemma remove_listener_subseteq (l x : Listener) (ls : list Listener) :
  x ∈ remove_listener l ls -> x ∈ ls.
Proof.
  induction ls as [|y ls IH]; simpl; [tauto|].
  case_bool_decide.
  - intros Hx. apply elem_of_cons. right. exact Hx.
  - rewrite !elem_of_cons. intros [Hx|Hx]; [left; exact Hx | right; apply IH, Hx].
Qed.

Lemma remove_listener_gone (l : Listener) (ls : list Listener) :
  NoDup ls -> l ∉ remove_listener l ls.
Proof.
  induction ls as [|y ls IH]; simpl; intros Hnd.
  - apply not_elem_of_nil.
  - apply NoDup_cons in Hnd as [Hy Hnd]. case_bool_decide.
    + subst y. exact Hy.
    + rewrite not_elem_of_cons. split; [congruence | apply IH, Hnd].
Qed.

Lemma remove_listener_last (l : Listener) (ls : list Listener) :
  l ∉ ls -> remove_listener l (ls ++ [l]) = ls.
Proof.
  induction ls as [|y ls IH]; simpl; intros Hnin.
  - rewrite bool_decide_eq_true_2 by reflexivity. reflexivity.
  - apply not_elem_of_cons in Hnin as [Hne Hnin].
    rewrite bool_decide_eq_false_2 by congruence. f_equal. apply IH, Hnin.
Qed.

Lemma reattach_once (l : Listener) (ls : list Listener) :
  NoDup ls -> reattach l ls = remove_listener l ls ++ [l].
Proof.
  intros Hnd. unfold reattach.
  rewrite bool_decide_eq_false_2 by apply remove_listener_gone, Hnd. reflexivity.
Qed.

Lemma reattach_again (l : Listener) (ls : list Listener) :
  l ∉ ls -> reattach l (ls ++ [l]) = ls ++ [l].
Proof.
  intros Hnin. unfold reattach. rewrite (remove_listener_last _ _ Hnin).
  rewrite bool_decide_eq_false_2 by exact Hnin. reflexivity.
Qed.

(** Any number of re-attachments, at least one, leaves what one leaves. *)
Lemma reattach_iter (n : nat) (l : Listener) (ls : list Listener) :
  NoDup ls -> Nat.iter (S n) (reattach l) ls = remove_listener l ls ++ [l].
Proof.
  intros Hnd. induction n as [|n IH].
  - apply reattach_once, Hnd.
  - change (Nat.iter (S (S n)) (reattach l) ls)
      with (reattach l (Nat.iter (S n) (reattach l) ls)).
    rewrite IH. apply reattach_again, remove_listener_gone, Hnd.
Qed.

Lemma remove_then_add (type : string) (cb : Callback) (capture : bool) (el : Element) :
  addEventListener type cb capture (removeEventListener type cb capture el)
  = set_listeners (reattach (mkListener type cb capture) (listeners el)) el.
Proof.
  unfold addEventListener, removeEventListener, reattach. simpl.
  destruct (bool_decide _); reflexivity.
Qed.

Lemma querySelector_update (sel sel' : string) (f : Element -> Element) (w : World) :
  querySelector (update sel f w) sel'
  = if decide (sel = sel') then f <$> querySelector w sel' else querySelector w sel'.
Proof.
  unfold querySelector, update. simpl. rewrite lookup_alter.
  destruct (decide (sel = sel')); [subst|]; reflexivity.
Qed.

Lemma querySelector_with_serial (n : nat) (sel : string) (w : World) :
  querySelector (with_serial n w) sel = querySelector w sel.
Proof. reflexivity. Qed.

(** What one [initEmailValidation] does to the form and to the button. *)
Lemma initEmailValidation_targets (w : World) (form : Element) :
  getElementById w "sib-form" = Some form ->
  getElementById (initEmailValidation w) "sib-form"
  = Some (set_listeners (reattach submit_entry (listeners form)) form)
  /\ querySelector (initEmailValidation w) SUBMIT_BTN
     = (fun btn => set_listeners (reattach click_entry (listeners btn)) btn)
         <$> querySelector w SUBMIT_BTN.
Proof.
  intros Hf. unfold initEmailValidation. rewrite Hf.
  change (querySelector w "#sib-form" = Some form) in Hf.
  set (w2 := update "#sib-form" _ (update "#sib-form" _ w)).
  assert (H2f : querySelector w2 "#sib-form"
                = Some (set_listeners (reattach submit_entry (listeners form)) form)).
  { subst w2. rewrite !querySelector_update.
    rewrite !decide_True by reflexivity. rewrite Hf. simpl.
    rewrite remove_then_add. reflexivity. }
  assert (H2b : querySelector w2 SUBMIT_BTN = querySelector w SUBMIT_BTN).
  { subst w2. rewrite !querySelector_update.
    rewrite !decide_False by discriminate. reflexivity. }
  rewrite H2b.
  set (w3 := match querySelector w SUBMIT_BTN with Some _ => _ | None => w2 end).
  assert (H3f : querySelector w3 "#sib-form"
                = Some (set_listeners (reattach submit_entry (listeners form)) form)).
  { subst w3. destruct (querySelector w SUBMIT_BTN); [|exact H2f].
    rewrite !querySelector_update. rewrite !decide_False by discriminate. exact H2f. }
  assert (H3b : querySelector w3 SUBMIT_BTN
                = (fun btn => set_listeners (reattach click_entry (listeners btn)) btn)
                    <$> querySelector w SUBMIT_BTN).
  { subst w3. destruct (querySelector w SUBMIT_BTN) as [btn|] eqn:Hb.
    - rewrite !querySelector_update. rewrite !decide_True by reflexivity.
      rewrite H2b. simpl. rewrite remove_then_add. reflexivity.
    - exact H2b. }
  clearbody w3. clear w2 H2f H2b.
  destruct (getElementById w3 "EMAIL").
  - change (getElementById ?x "sib-form") with (querySelector x "#sib-form").
    rewrite !querySelector_with_serial, !querySelector_update.
    rewrite !decide_False by discriminate. split; assumption.
  - split; assumption.
Qed.

Lemma set_listeners_same (el : Element) : set_listeners (listeners el) el = el.
Proof. destruct el; reflexivity. Qed.

Lemma iter_initEmailValidation_targets (n : nat) (w : World) (form : Element) :
  getElementById w "sib-form" = Some form ->
  getElementById (Nat.iter n initEmailValidation w) "sib-form"
  = Some (set_listeners (Nat.iter n (reattach submit_entry) (listeners form)) form)
  /\ querySelector (Nat.iter n initEmailValidation w) SUBMIT_BTN
     = (fun btn => set_listeners (Nat.iter n (reattach click_entry) (listeners btn)) btn)
         <$> querySelector w SUBMIT_BTN.
Proof.
  intros Hf. induction n as [|n [IHf IHb]].
  - simpl. rewrite Hf, set_listeners_same. split; [reflexivity|].
    destruct (querySelector w SUBMIT_BTN) as [btn|]; simpl; [|reflexivity].
    rewrite set_listeners_same. reflexivity.
  - change (Nat.iter (S n) initEmailValidation w)
      with (initEmailValidation (Nat.iter n initEmailValidation w)).
    destruct (initEmailValidation_targets _ _ IHf) as [Hf' Hb'].
    rewrite Hf', Hb', IHb. split; [reflexivity|].
    destruct (querySelector w SUBMIT_BTN); reflexivity.
Qed.

(* ===================================================================== *)
(** ** Dispatch among third-party listeners                               *)
(* ===================================================================== *)

Lemma invoke_stopped (ls : list Listener) (this : string) (w : World) (e : Event) :
  immediateStopped e = true -> invoke ls this w e = (w, e, []).
Proof. intros H. destruct ls; simpl; [reflexivity | rewrite H; reflexivity]. Qed.

Lemma invoke_external (ls : list Listener) (this : string) (w : World) (e : Event) :
  (forall l, l ∈ ls -> external (l_callback l)) ->
  immediateStopped e = false ->
  invoke ls this w e = (w, e, map l_callback ls).
Proof.
  intros Hext He. induction ls as [|l ls IH]; simpl; [reflexivity|].
  rewrite He. destruct (Hext l) as [name Hn]; [apply list_elem_of_here|].
  rewrite Hn. simpl. rewrite IH; [reflexivity|].
  intros l' Hl'. apply Hext. apply list_elem_of_further, Hl'.
Qed.

(** One listener of ours among third-party ones: the third-party
    listeners before it run, then ours, then the ones after it unless
    ours stopped the propagation. *)
Lemma invoke_around (A B : list Listener) (v : Listener) (this : string)
    (w : World) (e : Event) :
  (forall l, l ∈ A -> external (l_callback l)) ->
  (forall l, l ∈ B -> external (l_callback l)) ->
  immediateStopped e = false ->
  invoke (A ++ v :: B) this w e
  = let '(w1, e1) := call (l_callback v) this w e in
    (w1, e1, map l_callback A
             ++ l_callback v :: (if immediateStopped e1 then [] else map l_callback B)).
Proof.
  intros HA HB He. induction A as [|a A IH]; simpl.
  - rewrite He. destruct (call (l_callback v) this w e) as [w1 e1].
    destruct (immediateStopped e1) eqn:E1.
    + rewrite (invoke_stopped _ _ _ _ E1). reflexivity.
    + rewrite (invoke_external _ _ _ _ HB E1). reflexivity.
  - rewrite He. destruct (HA a) as [name Hn]; [apply list_elem_of_here|].
    rewrite Hn. simpl. rewrite IH.
    + destruct (call (l_callback v) this w e) as [w1 e1]. reflexivity.
    + intros l Hl. apply HA. apply list_elem_of_further, Hl.
Qed.

Lemma validation_runs_external (ls : list Listener) :
  (forall l, l ∈ ls -> external (l_callback l)) ->
  validation_runs (map l_callback ls) = 0.
Proof.
  unfold validation_runs. induction ls as [|l ls IH]; intros H; [reflexivity|].
  cbn [map]. destruct (H l) as [name Hn]; [apply list_elem_of_here|].
  rewrite filter_cons_False.
  - apply IH. intros l' Hl'. apply H. apply list_elem_of_further, Hl'.
  - rewrite Hn. intros [?|?]; discriminate.
Qed.

Lemma validation_runs_app (r1 r2 : list Callback) :
  validation_runs (r1 ++ r2) = validation_runs r1 + validation_runs r2.
Proof. unfold validation_runs. rewrite filter_app, length_app. reflexivity. Qed.

(** An element whose list is third-party listeners followed by ours: a
    dispatch of our type runs third-party callbacks, ours, and then
    third-party callbacks again unless ours stopped the propagation. *)
Lemma dispatch_ours (target : string) (ours : Listener) (w : World)
    (el : Element) (others : list Listener) :
  querySelector w target = Some el ->
  listeners el = others ++ [ours] ->
  (forall l, l ∈ others -> external (l_callback l)) ->
  l_capture ours = true ->
  exists A B,
    (forall l, l ∈ A -> external (l_callback l))
    /\ (forall l, l ∈ B -> external (l_callback l))
    /\ dispatchEvent target (l_type ours) w
       = let '(w1, e1) :=
           call (l_callback ours) target w (mkEvent (l_type ours) false false) in
         (w1, e1, map l_callback A
                  ++ l_callback ours
                     :: (if immediateStopped e1 then [] else map l_callback B)).
Proof.
  intros Hq Hls Hext Hcap. unfold dispatchEvent, dispatch_order.
  rewrite Hq, Hls. rewrite !filter_app.
  rewrite (filter_cons_True _ ours []) by reflexivity. rewrite filter_nil.
  rewrite (filter_cons_True _ ours []) by exact Hcap. rewrite filter_nil.
  rewrite (filter_cons_False _ ours []) by (rewrite Hcap; discriminate).
  rewrite filter_nil, app_nil_r, <- app_assoc. cbn [app].
  set (A := filter _ (filter _ others)).
  set (B := filter (fun l => l_capture l = false) (filter _ others)).
  assert (HA : forall l, l ∈ A -> external (l_callback l)).
  { intros l Hl. apply Hext. subst A.
    apply list_elem_of_filter in Hl as [_ Hl]. apply list_elem_of_filter in Hl as [_ Hl].
    exact Hl. }
  assert (HB : forall l, l ∈ B -> external (l_callback l)).
  { intros l Hl. apply Hext. subst B.
    apply list_elem_of_filter in Hl as [_ Hl]. apply list_elem_of_filter in Hl as [_ Hl].
    exact Hl. }
  exists A, B. split; [exact HA|]. split; [exact HB|].
  apply (invoke_around A B ours target w (mkEvent (l_type ours) false false)
           HA HB eq_refl).
Qed.

Lemma validation_runs_around (A B : list Listener) (cb : Callback) (stopped : bool) :
  (forall l, l ∈ A -> external (l_callback l)) ->
  (forall l, l ∈ B -> external (l_callback l)) ->
  cb = cb_validateEmail \/ cb = cb_validateEmailClick ->
  validation_runs (map l_callback A ++ cb :: (if stopped then [] else map l_callback B)) = 1.
Proof.
  intros HA HB Hcb.
  rewrite validation_runs_app, (validation_runs_external _ HA).
  change (cb :: ?r) with ([cb] ++ r). rewrite validation_runs_app.
  assert (Hrest : validation_runs (if stopped then [] else map l_callback B) = 0).
  { destruct stopped; [reflexivity | apply validation_runs_external, HB]. }
  rewrite Hrest. unfold validation_runs.
  rewrite filter_cons_True by exact Hcb. reflexivity.
Qed.

Lemma dispatch_runs_once (target : string) (ours : Listener) (w : World)
    (el : Element) (others : list Listener) :
  querySelector w target = Some el ->
  listeners el = others ++ [ours] ->
  (forall l, l ∈ others -> external (l_callback l)) ->
  l_capture ours = true ->
  l_callback ours = cb_validateEmail \/ l_callback ours = cb_validateEmailClick ->
  validation_runs (dispatchEvent target (l_type ours) w).2 = 1.
Proof.
  intros Hq Hls Hext Hcap Hcb.
  destruct (dispatch_ours _ _ _ _ _ Hq Hls Hext Hcap) as (A & B & HA & HB & ->).
  destruct (call (l_callback ours) target w _) as [w1 e1]. cbn [snd].
  apply validation_runs_around; assumption.
Qed.

(** [processValidation] touches the email field and the error label only. *)
Lemma processValidation_keeps (w : World) (sel : string) :
  sel <> "#EMAIL" -> sel <> "#email-error" ->
  querySelector (processValidation w).2 sel = querySelector w sel.
Proof.
  intros H1 H2. unfold processValidation.
  destruct (getElementById w "EMAIL"); [|reflexivity].
  destruct (Nat.ltb _ _); [reflexivity|].
  destruct (Js.includes _ _); cbn [snd];
    rewrite !querySelector_update, !decide_False by congruence; reflexivity.
Qed.

(** A click on the button of a page where the validator is attached to
    the form and to the button: the validation runs at the click, and
    once more at the "submit" that follows when the click was accepted. *)
Lemma clickSubmit_runs (w : World) (form btn : Element) (fs bs : list Listener) :
  querySelector w "#sib-form" = Some form ->
  listeners form = fs ++ [submit_entry] ->
  (forall l, l ∈ fs -> external (l_callback l)) ->
  querySelector w SUBMIT_BTN = Some btn ->
  listeners btn = bs ++ [click_entry] ->
  (forall l, l ∈ bs -> external (l_callback l)) ->
  validation_runs (clickSubmit w).2 = if (processValidation w).1 then 2 else 1.
Proof.
  intros Hf Hfl Hfe Hb Hbl Hbe. unfold clickSubmit.
  destruct (dispatch_ours SUBMIT_BTN click_entry _ _ _ Hb Hbl Hbe eq_refl)
    as (A & B & HA & HB & Hd).
  change (l_type click_entry) with "click" in Hd. rewrite Hd.
  cbn [call l_callback click_entry]. unfold validateEmailClick.
  pose proof (processValidation_keeps w "#sib-form") as Hkeep.
  destruct (processValidation w) as [ok w1]. cbn [fst snd] in *.
  destruct ok; cbn [negb defaultPrevented preventDefault stopImmediatePropagation
                    immediateStopped].
  - rewrite <- Hkeep in Hf by discriminate.
    pose proof (dispatch_runs_once "#sib-form" submit_entry w1 form fs Hf Hfl Hfe
                  eq_refl (or_introl eq_refl)) as Hs.
    change (l_type submit_entry) with "submit" in Hs.
    destruct (dispatchEvent "#sib-form" "submit" w1) as [[w2 e2] ran2].
    cbn [snd] in *. rewrite validation_runs_app, Hs.
    rewrite (validation_runs_around A B cb_validateEmailClick false HA HB
               (or_intror eq_refl)).
    reflexivity.
  - cbn [snd].
    apply (validation_runs_around A B cb_validateEmailClick true HA HB
             (or_intror eq_refl)).
Qed.

Lemma removed_are_external (ours : Listener) (ls : list Listener) :
  page_listeners ours ls ->
  forall l, l ∈ remove_listener ours ls -> external (l_callback l).
Proof.
  intros [Hnd Hall] l Hl.
  destruct (Hall l (remove_listener_subseteq _ _ _ Hl)) as [-> | Hext]; [|exact Hext].
  destruct (remove_listener_gone _ _ Hnd Hl).
Qed.

(** C4 as stated fails for a submission made the way a user makes it, by
    a click on the submit button with an address that is accepted: the
    validation runs at the click and again at the "submit" that follows,
    after one attach as after several. *)
Lemma click_submission_validates_twice :
  validation_runs
    (clickSubmit
       (initEmailValidation
          (page "/" empty_storage (gateway_document "user@example.com")))).2 = 2
  /\ validation_runs
    (clickSubmit
       (Nat.iter 2 initEmailValidation
          (page "/" empty_storage (gateway_document "user@example.com")))).2 = 2.
Proof. split; vm_compute; reflexivity. Qed.

(** C4, amended: after any number of runs of [initEmailValidation] on one
    render, at least one, the form carries the capturing "submit"
    listener [validateEmail] once, after its other listeners, and the
    button the capturing "click" listener [validateEmailClick] once: each
    run removes exactly that entry and adds it again.  A "submit"
    dispatched at the form, and a "click" dispatched at the button,
    therefore run the validation once each; a submission by a click on the
    button runs it at the click and, when that accepts, once more at the
    "submit" that follows. *)
Theorem attach_once_per_event (n : nat) (w : World) (form btn : Element) :
  getElementById w "sib-form" = Some form ->
  page_listeners submit_entry (listeners form) ->
  querySelector w SUBMIT_BTN = Some btn ->
  page_listeners click_entry (listeners btn) ->
  (exists form',
      getElementById (Nat.iter (S n) initEmailValidation w) "sib-form" = Some form'
      /\ listeners form' = remove_listener submit_entry (listeners form) ++ [submit_entry])
  /\ (exists btn',
      querySelector (Nat.iter (S n) initEmailValidation w) SUBMIT_BTN = Some btn'
      /\ listeners btn' = remove_listener click_entry (listeners btn) ++ [click_entry])
  /\ validation_runs
       (dispatchEvent "#sib-form" "submit" (Nat.iter (S n) initEmailValidation w)).2 = 1
  /\ validation_runs
       (dispatchEvent SUBMIT_BTN "click" (Nat.iter (S n) initEmailValidation w)).2 = 1
  /\ validation_runs (clickSubmit (Nat.iter (S n) initEmailValidation w)).2
     = if (processValidation (Nat.iter (S n) initEmailValidation w)).1 then 2 else 1.
Proof.
  intros Hf Hpf Hb Hpb.
  destruct (iter_initEmailValidation_targets (S n) w form Hf) as [Hf' Hb'].
  rewrite (reattach_iter n _ _ (proj1 Hpf)) in Hf'.
  rewrite Hb in Hb'.
  change (querySelector (Nat.iter (S n) initEmailValidation w) SUBMIT_BTN
          = Some (set_listeners (Nat.iter (S n) (reattach click_entry) (listeners btn)) btn))
    in Hb'.
  rewrite (reattach_iter n _ _ (proj1 Hpb)) in Hb'.
  pose proof (removed_are_external _ _ Hpf) as Hfe.
  pose proof (removed_are_external _ _ Hpb) as Hbe.
  split; [|split; [|split; [|split]]].
  - eexists. split; [exact Hf' | reflexivity].
  - eexists. split; [exact Hb' | reflexivity].
  - apply (dispatch_runs_once "#sib-form" submit_entry _ _ _ Hf' eq_refl Hfe eq_refl).
    left. reflexivity.
  - apply (dispatch_runs_once SUBMIT_BTN click_entry _ _ _ Hb' eq_refl Hbe eq_refl).
    right. reflexivity.
  - apply (clickSubmit_runs _ _ _ _ _ Hf' eq_refl Hfe Hb' eq_refl Hbe).
Qed.

Lemma attach_once_per_event_witness :
  validation_runs
    (dispatchEvent "#sib-form" "submit"
       (Nat.iter 3 initEmailValidation
          (page "/" empty_storage (gateway_with_transport "user@gmail.com")))).2 = 1.
Proof.
  apply (attach_once_per_event 2
           (page "/" empty_storage (gateway_with_transport "user@gmail.com"))
           (set_listeners [transport_entry] (blank 6)) (blank 7)).
  - reflexivity.
  - split.
    + apply NoDup_singleton.
    + intros l Hl. apply list_elem_of_singleton in Hl. subst l.
      right. exists "transport". reflexivity.
  - reflexivity.
  - split.
    + apply NoDup_nil_2.
    + intros l Hl. apply elem_of_nil in Hl. destruct Hl.
Defined.

(* ===================================================================== *)
(** ** The validator and the transport handler                            *)
(* ===================================================================== *)

(** The order of dispatch around our capturing "submit" listener: some
    capturing third-party listeners, ours, then the remaining third-party
    ones, all non-capturing ones among them. *)
Lemma dispatch_order_around (ls : list Listener) :
  NoDup ls ->
  submit_entry ∈ ls ->
  (forall l, l ∈ ls -> l = submit_entry \/ external (l_callback l)) ->
  exists A B,
    dispatch_order "submit" ls = A ++ submit_entry :: B
    /\ (forall l, l ∈ A -> external (l_callback l) /\ l ∈ ls /\ l_capture l = true)
    /\ (forall l, l ∈ B -> external (l_callback l))
    /\ (forall t, t ∈ ls -> l_type t = "submit" -> l_capture t = false -> t ∈ B).
Proof.
  intros Hnd Hin Hall. unfold dispatch_order.
  set (T := filter (fun l => l_type l = "submit") ls).
  assert (HT : forall l, l ∈ T -> l ∈ ls).
  { intros l Hl. subst T. apply list_elem_of_filter in Hl as [_ Hl]. exact Hl. }
  assert (Hcap : submit_entry ∈ filter (fun l => l_capture l = true) T).
  { apply list_elem_of_filter. split; [reflexivity|].
    subst T. apply list_elem_of_filter. split; [reflexivity | exact Hin]. }
  assert (Hndc : NoDup (filter (fun l => l_capture l = true) T)).
  { apply NoDup_filter. subst T. apply NoDup_filter, Hnd. }
  destruct (list_elem_of_split _ _ Hcap) as (A & A' & HA).
  assert (Hmem : forall l, l ∈ A ++ A' ->
            external (l_callback l) /\ l ∈ ls /\ l_capture l = true).
  { intros l Hl.
    assert (Hl' : l ∈ filter (fun l => l_capture l = true) T).
    { rewrite HA. rewrite elem_of_app in Hl. rewrite elem_of_app, elem_of_cons. tauto. }
    apply list_elem_of_filter in Hl' as [Hc Hl'].
    assert (Hne : l <> submit_entry).
    { intros ->. rewrite HA in Hndc. apply NoDup_app in Hndc as (_ & Hd & Ht).
      apply NoDup_cons in Ht as [Ht _]. apply elem_of_app in Hl as [Hl|Hl].
      - apply (Hd _ Hl). apply list_elem_of_here.
      - exact (Ht Hl). }
    destruct (Hall l (HT l Hl')) as [? | He]; [contradiction|].
    split; [exact He|]. split; [apply HT, Hl' | exact Hc]. }
  exists A, (A' ++ filter (fun l => l_capture l = false) T).
  rewrite HA, <- app_assoc. split; [reflexivity|]. split; [|split].
  - intros l Hl. apply Hmem. apply elem_of_app. left. exact Hl.
  - intros l Hl. apply elem_of_app in Hl as [Hl|Hl].
    + apply Hmem. apply elem_of_app. right. exact Hl.
    + apply list_elem_of_filter in Hl as [Hc Hl].
      destruct (Hall l (HT l Hl)) as [-> | He]; [discriminate Hc | exact He].
  - intros t Ht Hty Hc. apply elem_of_app. right.
    apply list_elem_of_filter. split; [exact Hc|].
    subst T. apply list_elem_of_filter. split; assumption.
Qed.

(** C7 as stated fails for two kinds of submission.  The validator is
    attached by a timer, 100 ms after the page is rendered: a "submit"
    dispatched while that timer is pending finds the transport handler
    alone on the form, which runs on a denied address with the event
    not cancelled and no validation at all.  And capture-phase attachment
    gives precedence over non-capturing listeners only: a transport
    handler that was itself registered in the capturing mode before the
    validator runs first, also after the attach. *)
Lemma submit_reaches_transport_unvalidated :
  timers (run [OpScheduleInit]
              (page "/" empty_storage (gateway_with_transport "user@gmail.com")))
  = [mkTimer 100 ta_initEmailValidation]
  /\ (processValidation
        (run [OpScheduleInit]
             (page "/" empty_storage (gateway_with_transport "user@gmail.com")))).1
     = false
  /\ (dispatchEvent "#sib-form" "submit"
        (run [OpScheduleInit]
             (page "/" empty_storage (gateway_with_transport "user@gmail.com")))).2
     = [cb_external "transport"]
  /\ defaultPrevented
       (dispatchEvent "#sib-form" "submit"
          (run [OpScheduleInit]
               (page "/" empty_storage (gateway_with_transport "user@gmail.com")))).1.2
     = false
  /\ (dispatchEvent "#sib-form" "submit"
        (initEmailValidation
           (page "/" empty_storage
              (<["#sib-form" := set_listeners [capturing_transport] (blank 6)]>
                 (gateway_document "user@gmail.com"))))).2
     = [cb_external "transport"; cb_validateEmail].
Proof.
  repeat split; vm_compute; reflexivity.
Qed.

(** C7, amended: take a form on which [initEmailValidation] has attached
    the validator, so that it carries the validator's capturing listener
    anywhere in its list, beside third-party listeners, and among these a
    transport handler registered in the default, non-capturing mode.  A
    "submit" runs [validateEmail] before the transport handler, whatever
    the registration order.  When the validation rejects, the event is
    cancelled and nothing runs after the validator, the transport handler
    not at all; when it accepts, the transport handler runs after it. *)
Theorem validateEmail_before_transport (w : World) (form : Element)
    (transport : Listener) :
  getElementById w "sib-form" = Some form ->
  NoDup (listeners form) ->
  submit_entry ∈ listeners form ->
  (forall l, l ∈ listeners form -> l = submit_entry \/ external (l_callback l)) ->
  transport ∈ listeners form ->
  l_type transport = "submit" ->
  external (l_callback transport) ->
  (forall l, l ∈ listeners form ->
     l_callback l = l_callback transport -> l_capture l = false) ->
  exists w' e' before later,
    dispatchEvent "#sib-form" "submit" w
    = (w', e', before ++ cb_validateEmail :: later)
    /\ (l_callback transport ∉ before)
    /\ ((processValidation w).1 = false ->
        later = [] /\ defaultPrevented e' = true /\ immediateStopped e' = true)
    /\ ((processValidation w).1 = true ->
        defaultPrevented e' = false /\ l_callback transport ∈ later).
Proof.
  intros Hf Hnd Hin Hall Ht Hty Hext Honly.
  change (querySelector w "#sib-form" = Some form) in Hf.
  destruct (dispatch_order_around _ Hnd Hin Hall) as (A & B & Hord & HA & HB & HBt).
  unfold dispatchEvent. rewrite Hf, Hord.
  rewrite (invoke_around A B submit_entry "#sib-form" w (mkEvent "submit" false false))
    by (try exact HB; try reflexivity; intros l Hl; apply (HA l Hl)).
  cbn [call l_callback submit_entry]. unfold validateEmail.
  assert (Hbefore : l_callback transport ∉ map l_callback A).
  { intros Hm. apply list_elem_of_fmap in Hm as (l & Heq & Hl).
    destruct (HA l Hl) as (_ & Hls & Hc).
    rewrite (Honly l Hls (eq_sym Heq)) in Hc. discriminate. }
  destruct (processValidation w) as [ok w1]. destruct ok; cbn [negb fst].
  - do 4 eexists. split; [reflexivity|]. split; [exact Hbefore|].
    split; [discriminate|]. intros _. split; [reflexivity|]. cbn [immediateStopped].
    apply list_elem_of_fmap_2. apply HBt; [exact Ht | exact Hty |].
    apply (Honly transport Ht eq_refl).
  - do 4 eexists. split; [reflexivity|]. split; [exact Hbefore|].
    split; [|discriminate]. intros _. repeat split; reflexivity.
Qed.

Lemma validateEmail_before_transport_witness :
  exists w' e' before later,
    dispatchEvent "#sib-form" "submit"
      (initEmailValidation
         (page "/" empty_storage (gateway_with_transport "user@gmail.com")))
    = (w', e', before ++ cb_validateEmail :: later)
    /\ (l_callback transport_entry ∉ before)
    /\ ((processValidation
           (initEmailValidation
              (page "/" empty_storage (gateway_with_transport "user@gmail.com")))).1
        = false ->
        later = [] /\ defaultPrevented e' = true /\ immediateStopped e' = true)
    /\ ((processValidation
           (initEmailValidation
              (page "/" empty_storage (gateway_with_transport "user@gmail.com")))).1
        = true ->
        defaultPrevented e' = false /\ l_callback transport_entry ∈ later).
Proof.
  apply (validateEmail_before_transport
           (initEmailValidation
              (page "/" empty_storage (gateway_with_transport "user@gmail.com")))
           (set_listeners [transport_entry; submit_entry] (blank 6))
           transport_entry).
  - reflexivity.
  - apply (bool_decide_unpack _). reflexivity.
  - apply list_elem_of_further, list_elem_of_here.
  - intros l Hl. apply elem_of_cons in Hl as [-> | Hl].
    + right. exists "transport". reflexivity.
    + apply list_elem_of_singleton in Hl. left. exact Hl.
  - apply list_elem_of_here.
  - reflexivity.
  - exists "transport". reflexivity.
  - intros l Hl Hcb. apply elem_of_cons in Hl as [-> | Hl]; [reflexivity|].
    apply list_elem_of_singleton in Hl. subst l. discriminate Hcb.
Defined.

(* ===================================================================== *)
(** ** The denylist test as a test on the typed value                     *)
(* ===================================================================== *)

Lemma split_shape (sep : ascii) (s : string) :
  Js.split sep s <> []
  /\ (length (Js.split sep s) < 2 -> Js.split sep s = [s])
  /\ (2 <= length (Js.split sep s) ->
      exists pre, s = pre +:+ String sep (List.last (Js.split sep s) EmptyString)).
Proof.
  induction s as [|c r (IHne & IH1 & IH2)]; simpl.
  - split; [discriminate|]. split; [reflexivity | simpl; lia].
  - destruct (Ascii.eqb c sep) eqn:Ec.
    + apply Ascii.eqb_eq in Ec. subst c.
      split; [discriminate|]. split.
      * simpl. destruct (Js.split sep r); [contradiction | simpl; lia].
      * intros _. destruct (Js.split sep r) as [|h t] eqn:Er; [contradiction|].
        destruct t as [|h' t'].
        -- exists EmptyString. simpl.
           assert (Hr : [h] = [r]) by (apply IH1; simpl; lia).
           injection Hr as ->. reflexivity.
        -- destruct IH2 as [pre Hpre]; [simpl; lia|].
           exists (String sep pre). simpl. rewrite Hpre at 1. reflexivity.
    + destruct (Js.split sep r) as [|h t] eqn:Er; [contradiction|].
      split; [discriminate|]. split.
      * destruct t; [|simpl; lia]. intros _.
        assert (Hr : [h] = [r]) by (apply IH1; simpl; lia).
        injection Hr as ->. reflexivity.
      * destruct t as [|h' t']; [simpl; lia|]. intros _.
        destruct IH2 as [pre Hpre]; [simpl; lia|].
        exists (String c pre). simpl. rewrite Hpre at 1. reflexivity.
Qed.

Lemma split_after (sep : ascii) (pre d : string) :
  Js.split sep d = [d] ->
  2 <= length (Js.split sep (pre +:+ String sep d))
  /\ List.last (Js.split sep (pre +:+ String sep d)) EmptyString = d.
Proof.
  intros Hd. induction pre as [|c p [IHl IHd]]; simpl.
  - rewrite Ascii.eqb_refl, Hd. simpl. split; [lia | reflexivity].
  - destruct (Ascii.eqb c sep).
    + destruct (Js.split sep (p +:+ String sep d)) as [|h t]; [simpl in IHl; lia|].
      split; [simpl; lia | exact IHd].
    + destruct (Js.split sep (p +:+ String sep d)) as [|h [|h' t]];
        [simpl in IHl; lia | simpl in IHl; lia |].
      split; [simpl; lia | exact IHd].
Qed.

Lemma blockedDomains_unsplit (d : string) :
  d ∈ blockedDomains -> Js.split "@" d = [d].
Proof.
  unfold blockedDomains. rewrite !elem_of_cons, elem_of_nil.
  intros [-> | [-> | [-> | []]]]; reflexivity.
Qed.

(** X1: [processValidation] refuses a submission exactly when the email
    field is there and its trimmed, lower-cased value ends in '@' followed
    by a denied domain: whatever stands before that '@', further '@'
    included, and nothing after the domain. *)
Theorem processValidation_refuses_suffix (w : World) :
  (processValidation w).1 = false <->
  exists emailInput pre d,
    getElementById w "EMAIL" = Some emailInput
    /\ d ∈ blockedDomains
    /\ Js.toLowerCase (Js.trim (value emailInput)) = pre +:+ String "@" d.
Proof.
  unfold processValidation.
  destruct (getElementById w "EMAIL") as [emailInput|].
  - set (s := Js.toLowerCase (Js.trim (value emailInput))).
    destruct (split_shape "@" s) as (_ & _ & Hsuf).
    destruct (Nat.ltb (length (Js.split "@" s)) 2) eqn:El.
    + apply Nat.ltb_lt in El. split; [discriminate|].
      intros (el & pre & d & [= <-] & Hd & Hs). exfalso.
      fold s in Hs.
      destruct (split_after "@" pre d (blockedDomains_unsplit d Hd)) as [Hl _].
      rewrite <- Hs in Hl. lia.
    + apply Nat.ltb_ge in El.
      destruct (Js.includes blockedDomains (List.last (Js.split "@" s) EmptyString)) eqn:Ei;
        cbn [fst].
      * split; [intros _ | reflexivity].
        destruct (Hsuf El) as [pre Hpre].
        exists emailInput, pre, (List.last (Js.split "@" s) EmptyString).
        split; [reflexivity|]. split; [apply includes_elem_of, Ei | exact Hpre].
      * split; [discriminate|].
        intros (el & pre & d & [= <-] & Hd & Hs). exfalso. fold s in Hs.
        destruct (split_after "@" pre d (blockedDomains_unsplit d Hd)) as [_ Hlast].
        rewrite <- Hs in Hlast. rewrite Hlast in Ei.
        apply includes_elem_of in Hd. congruence.
  - split; [discriminate|]. intros (el & _ & _ & H & _). discriminate H.
Qed.

Lemma alter_twice (f g : Element -> Element) (a b : string)
    (m : gmap string Element) :
  (forall x, f (f x) = f x) -> (forall x, g (g x) = g x) -> a <> b ->
  alter g a (alter f b (alter g a (alter f b m))) = alter g a (alter f b m).
Proof.
  intros Hf Hg Hab. apply map_eq. intros k.
  destruct (decide (k = a)) as [->|Ha].
  - rewrite !lookup_alter_eq, !(lookup_alter_ne _ _ b a) by congruence.
    rewrite lookup_alter_eq, !(lookup_alter_ne _ _ b a) by congruence.
    destruct (m !! a); simpl; [rewrite Hg|]; reflexivity.
  - rewrite !(lookup_alter_ne _ _ a k) by congruence.
    destruct (decide (k = b)) as [->|Hb].
    + rewrite !lookup_alter_eq, !(lookup_alter_ne _ _ a b) by congruence.
      rewrite lookup_alter_eq. destruct (m !! b); simpl; [rewrite Hf|]; reflexivity.
    + rewrite !(lookup_alter_ne _ _ b k), !(lookup_alter_ne _ _ a k) by congruence.
      rewrite !(lookup_alter_ne _ _ b k) by congruence. reflexivity.
Qed.

Lemma feedback_twice (f g : Element -> Element) (w : World) :
  (forall x, f (f x) = f x) -> (forall x, g (g x) = g x) ->
  update "#EMAIL" g (update "#email-error" f
    (update "#EMAIL" g (update "#email-error" f w)))
  = update "#EMAIL" g (update "#email-error" f w).
Proof.
  intros Hf Hg. unfold update, with_document. simpl. f_equal.
  apply alter_twice; [exact Hf | exact Hg | discriminate].
Qed.

(** X2: validating a second time changes nothing: the verdict and the
    state after two runs of [processValidation] are those after one.  The
    second run that a click-then-submit makes is therefore without
    effect. *)
Theorem processValidation_twice (w : World) :
  processValidation (processValidation w).2 = processValidation w.
Proof.
  unfold processValidation at 2 3.
  destruct (getElementById w "EMAIL") as [emailInput|] eqn:He.
  - destruct (Nat.ltb _ _) eqn:El.
    + cbn [snd]. unfold processValidation. rewrite He, El. reflexivity.
    + destruct (Js.includes _ _) eqn:Ei; cbn [snd].
      * destruct (feedback_update w
                    (fun errorLabel => set_display "block" (set_content DENIAL_TEXT errorLabel))
                    (set_border INVALID_BORDER) _ He) as (He' & _ & _).
        unfold processValidation. cbv zeta in He'. rewrite He'.
        change (value (set_border INVALID_BORDER emailInput)) with (value emailInput).
        rewrite El, Ei. f_equal.
        apply (feedback_twice
                 (fun errorLabel => set_display "block" (set_content DENIAL_TEXT errorLabel))
                 (set_border INVALID_BORDER));
          intros x; reflexivity.
      * destruct (feedback_update w (set_display "none") (set_border VALID_BORDER) _ He)
          as (He' & _ & _).
        unfold processValidation. cbv zeta in He'. rewrite He'.
        change (value (set_border VALID_BORDER emailInput)) with (value emailInput).
        rewrite El, Ei. f_equal.
        apply (feedback_twice (set_display "none") (set_border VALID_BORDER));
          intros x; reflexivity.
  - cbn [snd]. unfold processValidation. rewrite He. reflexivity.
Qed.

(* ===================================================================== *)
(** ** Letter case and surrounding white space                            *)
(* ===================================================================== *)

Lemma lowerChar_twice (c : ascii) : Js.lowerChar (Js.lowerChar c) = Js.lowerChar c.
Proof. destruct c as [[] [] [] [] [] [] [] []]; reflexivity. Qed.

Lemma isWhiteSpace_lowerChar (c : ascii) :
  Js.isWhiteSpace (Js.lowerChar c) = Js.isWhiteSpace c.
Proof. destruct c as [[] [] [] [] [] [] [] []]; reflexivity. Qed.

Lemma toLowerCase_twice (s : string) :
  Js.toLowerCase (Js.toLowerCase s) = Js.toLowerCase s.
Proof.
  induction s as [|c r IH]; simpl; [reflexivity|].
  rewrite lowerChar_twice, IH. reflexivity.
Qed.

Lemma toLowerCase_trimStart (s : string) :
  Js.toLowerCase (Js.trimStart s) = Js.trimStart (Js.toLowerCase s).
Proof.
  induction s as [|c r IH]; simpl; [reflexivity|].
  rewrite isWhiteSpace_lowerChar. destruct (Js.isWhiteSpace c); [exact IH | reflexivity].
Qed.

Lemma toLowerCase_empty (s : string) :
  Js.str_eq (Js.toLowerCase s) EmptyString = Js.str_eq s EmptyString.
Proof. destruct s; reflexivity. Qed.

Lemma toLowerCase_trimEnd (s : string) :
  Js.toLowerCase (Js.trimEnd s) = Js.trimEnd (Js.toLowerCase s).
Proof.
  induction s as [|c r IH]; simpl; [reflexivity|].
  rewrite isWhiteSpace_lowerChar, <- IH, toLowerCase_empty.
  destruct (Js.isWhiteSpace c && Js.str_eq (Js.trimEnd r) EmptyString); reflexivity.
Qed.

Lemma toLowerCase_trim (s : string) :
  Js.toLowerCase (Js.trim s) = Js.trim (Js.toLowerCase s).
Proof. unfold Js.trim. rewrite toLowerCase_trimEnd, toLowerCase_trimStart. reflexivity. Qed.

Lemma trimEnd_twice (s : string) : Js.trimEnd (Js.trimEnd s) = Js.trimEnd s.
Proof.
  induction s as [|c r IH]; simpl; [reflexivity|].
  destruct (Js.isWhiteSpace c && Js.str_eq (Js.trimEnd r) EmptyString) eqn:E;
    [reflexivity|].
  simpl. rewrite IH, E. reflexivity.
Qed.

Lemma trimStart_head (s : string) :
  Js.trimStart s = EmptyString
  \/ exists c r, Js.trimStart s = String c r /\ Js.isWhiteSpace c = false.
Proof.
  induction s as [|c r IH]; simpl; [left; reflexivity|].
  destruct (Js.isWhiteSpace c) eqn:E; [exact IH|].
  right. exists c, r. split; [reflexivity | exact E].
Qed.

Lemma trim_twice (s : string) : Js.trim (Js.trim s) = Js.trim s.
Proof.
  unfold Js.trim. destruct (trimStart_head s) as [-> | (c & r & -> & Hc)];
    [reflexivity|].
  assert (Hend : forall t, Js.trimEnd (String c t) = String c (Js.trimEnd t))
    by (intros t; simpl; rewrite Hc; reflexivity).
  rewrite Hend. cbn [Js.trimStart]. rewrite Hc, Hend, trimEnd_twice. reflexivity.
Qed.

Lemma segments_normal (v : string) :
  segments (Js.trim v) = segments v /\ segments (Js.toLowerCase v) = segments v.
Proof.
  unfold segments. split.
  - rewrite trim_twice. reflexivity.
  - rewrite <- toLowerCase_trim, toLowerCase_twice. reflexivity.
Qed.

Lemma processValidation_verdict (w : World) (emailInput : Element) :
  getElementById w "EMAIL" = Some emailInput ->
  (processValidation w).1
  = Nat.ltb (length (segments (value emailInput))) 2
    || negb (Js.includes blockedDomains (domain_of (value emailInput))).
Proof.
  intros He. unfold processValidation. rewrite He.
  fold (segments (value emailInput)).
  change (List.last (segments (value emailInput)) EmptyString)
    with (domain_of (value emailInput)).
  destruct (Nat.ltb _ _); [reflexivity|].
  destruct (Js.includes _ _); reflexivity.
Qed.

Lemma typed_value (w : World) (emailInput : Element) (v : string) :
  getElementById w "EMAIL" = Some emailInput ->
  getElementById (update "#EMAIL" (set_value v) w) "EMAIL"
  = Some (set_value v emailInput).
Proof.
  intros He. change (querySelector w "#EMAIL" = Some emailInput) in He.
  change (querySelector (update "#EMAIL" (set_value v) w) "#EMAIL"
          = Some (set_value v emailInput)).
  rewrite querySelector_update, decide_True by reflexivity. rewrite He. reflexivity.
Qed.

(** X3: the verdict of [processValidation] does not depend on the letter
    case of the typed value nor on white space around it: with the value
    replaced by its trimmed form, or by its lower-cased form, the verdict
    is the same. *)
Theorem processValidation_ignores_case_and_margin (w : World) (emailInput : Element) :
  getElementById w "EMAIL" = Some emailInput ->
  (processValidation
     (update "#EMAIL" (set_value (Js.trim (value emailInput))) w)).1
  = (processValidation w).1
  /\ (processValidation
        (update "#EMAIL" (set_value (Js.toLowerCase (value emailInput))) w)).1
     = (processValidation w).1.
Proof.
  intros He. rewrite (processValidation_verdict w _ He).
  rewrite (processValidation_verdict _ _ (typed_value w _ _ He)).
  rewrite (processValidation_verdict _ _ (typed_value w _ _ He)).
  unfold domain_of. cbn [value set_value].
  destruct (segments_normal (value emailInput)) as [-> ->]. split; reflexivity.
Qed.

Lemma processValidation_ignores_case_and_margin_witness :
  (processValidation
     (update "#EMAIL" (set_value (Js.trim "  User@GMAIL.com "))
        (page "/" empty_storage (gateway_document "  User@GMAIL.com ")))).1
  = (processValidation (page "/" empty_storage (gateway_document "  User@GMAIL.com "))).1
  /\ (processValidation
        (update "#EMAIL" (set_value (Js.toLowerCase "  User@GMAIL.com "))
           (page "/" empty_storage (gateway_document "  User@GMAIL.com ")))).1
     = (processValidation (page "/" empty_storage (gateway_document "  User@GMAIL.com "))).1.
Proof.
  exact (processValidation_ignores_case_and_margin
           (page "/" empty_storage (gateway_document "  User@GMAIL.com "))
           (input_with 8 "  User@GMAIL.com ") eq_refl).
Defined.

(* ===================================================================== *)
(** ** What each script leaves alone                                      *)
(* ===================================================================== *)

Lemma page_only_refl (w : World) : page_only w w.
Proof. repeat split. Qed.

Lemma page_only_trans (w1 w2 w3 : World) :
  page_only w1 w2 -> page_only w2 w3 -> page_only w1 w3.
Proof.
  unfold page_only. intros (?&?&?&?&?) (?&?&?&?&?). repeat split; congruence.
Qed.

Lemma processValidation_page_only (w : World) : page_only w (processValidation w).2.
Proof.
  unfold processValidation.
  destruct (getElementById w "EMAIL"); [|apply page_only_refl].
  destruct (Nat.ltb _ _); [apply page_only_refl|].
  destruct (Js.includes _ _); repeat split.
Qed.

Lemma initEmailValidation_page_only (w : World) : page_only w (initEmailValidation w).
Proof.
  unfold initEmailValidation.
  destruct (getElementById w "sib-form"); [|apply page_only_refl].
  destruct (querySelector _ SUBMIT_BTN);
    match goal with |- context [getElementById ?x "EMAIL"] =>
      destruct (getElementById x "EMAIL") end; repeat split.
Qed.

Lemma call_page_only (cb : Callback) (this : string) (w : World) (e : Event) :
  page_only w (call cb this w e).1.
Proof.
  destruct cb; simpl; try (repeat split; fail).
  - unfold validateEmail. pose proof (processValidation_page_only w) as H.
    destruct (processValidation w) as [[] w']; exact H.
  - unfold validateEmailClick. pose proof (processValidation_page_only w) as H.
    destruct (processValidation w) as [[] w']; exact H.
Qed.

Lemma invoke_page_only (ls : list Listener) (this : string) (w : World) (e : Event) :
  page_only w (invoke ls this w e).1.1.
Proof.
  revert w e. induction ls as [|l ls IH]; intros w e; simpl; [apply page_only_refl|].
  destruct (immediateStopped e); [apply page_only_refl|].
  pose proof (call_page_only (l_callback l) this w e) as Hc.
  destruct (call (l_callback l) this w e) as [w1 e1].
  pose proof (IH w1 e1) as Hi.
  destruct (invoke ls this w1 e1) as [[w2 e2] ran].
  simpl in *. apply (page_only_trans _ _ _ Hc Hi).
Qed.

Lemma dispatchEvent_page_only (target type : string) (w : World) :
  page_only w (dispatchEvent target type w).1.1.
Proof.
  unfold dispatchEvent. destruct (querySelector w target); [|apply page_only_refl].
  apply invoke_page_only.
Qed.

Lemma clickSubmit_page_only (w : World) : page_only w (clickSubmit w).1.
Proof.
  unfold clickSubmit.
  pose proof (dispatchEvent_page_only SUBMIT_BTN "click" w) as H.
  destruct (dispatchEvent SUBMIT_BTN "click" w) as [[w1 e] ran]. simpl in H.
  destruct (defaultPrevented e); [exact H|].
  pose proof (dispatchEvent_page_only "#sib-form" "submit" w1) as H'.
  destruct (dispatchEvent "#sib-form" "submit" w1) as [[w2 e2] ran2]. simpl in *.
  apply (page_only_trans _ _ _ H H').
Qed.

(** X4: the functions of email-validation.js work on the elements of the
    page and on nothing else: attaching, either validation handler and
    the keystroke listener leave the location, the store, the observers,
    the timers and the navigations as they were. *)
Theorem validator_touches_elements_only (w : World) :
  page_only w (initEmailValidation w)
  /\ (forall e, page_only w (validateEmail w e).1)
  /\ (forall e, page_only w (validateEmailClick w e).1)
  /\ (forall this, page_only w (inputClear this w)).
Proof.
  split; [apply initEmailValidation_page_only|]. split; [|split].
  - intros e. apply (call_page_only cb_validateEmail EmptyString w e).
  - intros e. apply (call_page_only cb_validateEmailClick EmptyString w e).
  - intros this. repeat split.
Qed.

Lemma initFormObserver_document (w : World) :
  document (initFormObserver w) = document w.
Proof. apply initFormObserver_rest. Qed.

(** X5: [enforceAccess] changes no element but the header and the tabs,
    and of these only [style.display]: every other element, with its
    listeners, its value and its content, is as before.  It attaches no
    validator and no listener of any kind. *)
Theorem enforceAccess_elements (w w' : World) :
  enforceAccess w = Ok w' ->
  forall sel,
    document w' !! sel = document w !! sel
    \/ ((sel = ".md-header" \/ sel = ".md-tabs")
        /\ document w' !! sel = set_display "none" <$> document w !! sel).
Proof.
  unfold enforceAccess. destruct (hasAccess w) as [[]|]; [| |discriminate];
    destruct (isGatewayPage w); simpl; intros [= <-] sel; try (left; reflexivity).
  unfold update. simpl. rewrite initFormObserver_document.
  destruct (decide (sel = ".md-tabs")) as [->|Ht].
  - right. split; [right; reflexivity|].
    rewrite lookup_alter_eq, lookup_alter_ne by discriminate. reflexivity.
  - rewrite lookup_alter_ne by congruence.
    destruct (decide (sel = ".md-header")) as [->|Hh].
    + right. split; [left; reflexivity|]. apply lookup_alter_eq.
    + left. apply lookup_alter_ne. congruence.
Qed.

Lemma enforceAccess_elements_witness :
  document
    (update ".md-tabs" (set_display "none")
       (update ".md-header" (set_display "none")
          (initFormObserver (page "/" empty_storage (gateway_document EmptyString)))))
    !! ".md-header"
  = document (page "/" empty_storage (gateway_document EmptyString)) !! ".md-header"
  \/ ((".md-header" = ".md-header" \/ ".md-header" = ".md-tabs")
      /\ document
           (update ".md-tabs" (set_display "none")
              (update ".md-header" (set_display "none")
                 (initFormObserver
                    (page "/" empty_storage (gateway_document EmptyString)))))
           !! ".md-header"
         = set_display "none"
             <$> document (page "/" empty_storage (gateway_document EmptyString))
                 !! ".md-header").
Proof.
  exact (enforceAccess_elements
           (page "/" empty_storage (gateway_document EmptyString))
           (update ".md-tabs" (set_display "none")
              (update ".md-header" (set_display "none")
                 (initFormObserver
                    (page "/" empty_storage (gateway_document EmptyString)))))
           eq_refl ".md-header").
Defined.

(* ===================================================================== *)
(** ** Redirects and timers over the life of the page                     *)
(* ===================================================================== *)

Lemma hasAccess_flag_set (w : World) : flag_set w -> hasAccess w = Ok true.
Proof.
  intros (items & Hs & Hk). rewrite (hasAccess_ready _ _ Hs).
  rewrite bool_decide_eq_true_2; [reflexivity | exact Hk].
Qed.

Lemma getDashboardPath_to_content (w : World) :
  to_content (NavReplace (getDashboardPath w)).
Proof.
  unfold to_content, getDashboardPath.
  destruct (Js.startsWith (pathname w) "/trxo"); [right | left]; reflexivity.
Qed.

(** The outcome of [enforceAccess], by what it read. *)
Lemma enforceAccess_cases (w w' : World) :
  enforceAccess w = Ok w' ->
  timers w' = timers w /\ pathname w' = pathname w
  /\ ((hasAccess w = Ok true /\ observers w' = observers w
       /\ ((isGatewayPage w = false /\ navigations w' = navigations w)
           \/ (isGatewayPage w = true
               /\ navigations w' = navigations w ++ [NavReplace (getDashboardPath w)])))
      \/ (hasAccess w = Ok false
          /\ ((isGatewayPage w = true /\ navigations w' = navigations w)
              \/ (isGatewayPage w = false
                  /\ navigations w' = navigations w ++ [NavReplace (getGatewayPath w)])))).
Proof.
  unfold enforceAccess. destruct (hasAccess w) as [[]|]; [| |discriminate];
    destruct (isGatewayPage w); simpl; intros [= <-]; simpl.
  - split; [reflexivity|]. split; [reflexivity|]. left. split; [reflexivity|].
    split; [reflexivity|]. right. split; reflexivity.
  - split; [reflexivity|]. split; [reflexivity|]. left. split; [reflexivity|].
    split; [reflexivity|]. left. split; reflexivity.
  - destruct (initFormObserver_rest w) as (Hp & _ & _ & Ht & Hn & _).
    split; [exact Ht|]. split; [exact Hp|]. right. split; [reflexivity|].
    left. split; [reflexivity | exact Hn].
  - split; [reflexivity|]. split; [reflexivity|]. right. split; [reflexivity|].
    right. split; reflexivity.
Qed.

Lemma observerCallback_rest (w w' : World) :
  observerCallback w = Ok w' ->
  navigations w' = navigations w /\ pathname w' = pathname w
  /\ exists more, timers w' = timers w ++ more.
Proof.
  unfold observerCallback, setItem. destruct (successVisible w).
  - destruct (localStorage w) as [|items|items]; [discriminate| |discriminate].
    intros [= <-].
    destruct (replaceGatewayContent_rest SUCCESS_HTML
                (with_storage (StorageReady (<[ACCESS_KEY := "true"]> items)) w))
      as (Hp & _ & _ & Ht & Hn & _).
    unfold setTimeout, with_timers. cbn [navigations pathname timers].
    split; [exact Hn|]. split; [exact Hp|]. rewrite Ht. eexists. reflexivity.
  - intros [= <-]. split; [reflexivity|]. split; [reflexivity|].
    exists []. rewrite app_nil_r. reflexivity.
Qed.

Lemma fireTimer_navigations (i : nat) (w : World) :
  navigations (fireTimer i w) = navigations w
  \/ navigations (fireTimer i w) = navigations w ++ [NavReplace (getDashboardPath w)].
Proof.
  unfold fireTimer. destruct (timers w !! i) as [[d []]|]; simpl.
  - right. reflexivity.
  - left. apply (initEmailValidation_page_only (with_timers (delete i (timers w)) w)).
  - left. reflexivity.
Qed.

(** Each handler adds at most one navigation: a replace to the content
    entry path, or, from [enforceAccess] without access, to the gateway. *)
Lemma step_navigations (op : Op) (w w' : World) :
  step op w = Ok w' ->
  navigations w' = navigations w
  \/ to_content_added w w'
  \/ (op = OpEnforceAccess /\ hasAccess w = Ok false).
Proof.
  unfold to_content_added. destruct op; simpl.
  - intros [= <-]. left. reflexivity.
  - intros H. destruct (enforceAccess_cases _ _ H)
      as (_ & _ & [(_ & _ & [[_ Hn] | [_ Hn]]) | [Hf _]]).
    + left. exact Hn.
    + right. left. exact Hn.
    + right. right. split; [reflexivity | exact Hf].
  - intros [= <-]. left. reflexivity.
  - intros [= <-]. left. apply initEmailValidation_page_only.
  - destruct (observers w !! i).
    + intros H. left. apply (observerCallback_rest _ _ H).
    + intros [= <-]. left. reflexivity.
  - intros [= <-]. destruct (fireTimer_navigations i w) as [H|H]; [left | right; left]; exact H.
  - intros [= <-]. left. apply dispatchEvent_page_only.
  - intros [= <-]. left. apply clickSubmit_page_only.
  - intros [= <-]. left. apply dispatchEvent_page_only.
Qed.

Lemma after_granted (op : Op) (w : World) :
  flag_set w ->
  observers (after op w) = observers w
  /\ (navigations (after op w) = navigations w \/ to_content_added w (after op w)).
Proof.
  intros Hflag. pose proof (hasAccess_flag_set _ Hflag) as Ha. unfold after.
  destruct (step op w) as [w'|] eqn:E; [|split; [reflexivity | left; reflexivity]].
  split.
  - destruct (step_observers _ _ _ E) as [Ho | [-> _]]; [exact Ho|].
    simpl in E. destruct (enforceAccess_cases _ _ E)
      as (_ & _ & [(_ & Ho & _) | [Hf _]]); [exact Ho | congruence].
  - destruct (step_navigations _ _ _ E) as [H | [H | [_ Hf]]];
      [left; exact H | right; exact H | congruence].
Qed.

(** X6: once the flag is set, nothing sends the visitor back to the
    gateway and nothing arms an observer again: whatever handlers run,
    re-renders included, the observers stay as they are and every
    navigation that is added is a replace to a content entry path. *)
Theorem granted_never_back (ops : list Op) (w : World) :
  flag_set w ->
  observers (run ops w) = observers w
  /\ exists added, navigations (run ops w) = navigations w ++ added
                   /\ Forall to_content added.
Proof.
  revert w. unfold run. induction ops as [|op ops IH]; intros w Hflag; simpl.
  - split; [reflexivity|]. exists []. rewrite app_nil_r. split; [reflexivity | constructor].
  - destruct (after_granted op w Hflag) as [Ho Hn].
    destruct (IH _ (after_flag_set op w Hflag)) as (Ho' & added & Hn' & Hall).
    split; [congruence|].
    destruct Hn as [Hn | Hn].
    + exists added. rewrite Hn', Hn. split; [reflexivity | exact Hall].
    + exists (NavReplace (getDashboardPath w) :: added).
      unfold to_content_added in Hn. rewrite Hn', Hn, <- app_assoc.
      split; [reflexivity|]. constructor; [apply getDashboardPath_to_content | exact Hall].
Qed.

Lemma granted_never_back_witness :
  observers (run [OpRender "/trxo/" (gateway_document EmptyString); OpEnforceAccess;
                  OpRender "/trxo/guide/" ∅; OpEnforceAccess; OpClick]
                 (page "/" granted_storage (gateway_document EmptyString)))
  = observers (page "/" granted_storage (gateway_document EmptyString))
  /\ exists added,
      navigations (run [OpRender "/trxo/" (gateway_document EmptyString); OpEnforceAccess;
                        OpRender "/trxo/guide/" ∅; OpEnforceAccess; OpClick]
                       (page "/" granted_storage (gateway_document EmptyString)))
      = navigations (page "/" granted_storage (gateway_document EmptyString)) ++ added
      /\ Forall to_content added.
Proof.
  apply granted_never_back.
  exists {[ ACCESS_KEY := "true" ]}. split; reflexivity.
Defined.

Lemma step_timers (op : Op) (w w' : World) :
  step op w = Ok w' -> ~ is_timer op -> exists more, timers w' = timers w ++ more.
Proof.
  assert (Hsame : forall a b : World, timers b = timers a ->
                    exists more, timers b = timers a ++ more).
  { intros a b H. exists []. rewrite app_nil_r. exact H. }
  destruct op; simpl; intros H Hnt.
  - injection H as <-. apply Hsame. reflexivity.
  - apply Hsame. apply (enforceAccess_cases _ _ H).
  - injection H as <-. eexists. reflexivity.
  - injection H as <-. apply Hsame. apply initEmailValidation_page_only.
  - destruct (observers w !! i).
    + apply (observerCallback_rest _ _ H).
    + injection H as <-. apply Hsame. reflexivity.
  - destruct Hnt. exists i. reflexivity.
  - injection H as <-. apply Hsame. apply dispatchEvent_page_only.
  - injection H as <-. apply Hsame. apply clickSubmit_page_only.
  - injection H as <-. apply Hsame. apply dispatchEvent_page_only.
Qed.

(** X7: no handler cancels a timer.  Over any sequence of handlers and
    re-renders in which no timer fires, the timers that were pending are
    still pending, in their order, before the ones scheduled since: a
    redirect that was scheduled stays scheduled. *)
Theorem pending_timers_stay (ops : list Op) (w : World) :
  Forall (fun op => ~ is_timer op) ops ->
  exists more, timers (run ops w) = timers w ++ more.
Proof.
  revert w. unfold run. induction ops as [|op ops IH]; intros w Hall; simpl.
  - exists []. rewrite app_nil_r. reflexivity.
  - apply Forall_cons in Hall as [Hop Hall].
    destruct (IH (after op w) Hall) as [m2 H2].
    assert (H1 : exists m1, timers (after op w) = timers w ++ m1).
    { unfold after. destruct (step op w) as [w'|] eqn:E.
      - apply (step_timers _ _ _ E Hop).
      - exists []. rewrite app_nil_r. reflexivity. }
    destruct H1 as [m1 H1]. exists (m1 ++ m2). rewrite H2, H1, app_assoc. reflexivity.
Qed.

Lemma pending_timers_stay_witness :
  exists more,
    timers (run [OpRender "/home/" ∅; OpEnforceAccess; OpScheduleInit; OpSubmit]
                (setTimeout ta_redirectToDashboard 1500
                   (page "/" granted_storage (gateway_document EmptyString))))
    = timers (setTimeout ta_redirectToDashboard 1500
                (page "/" granted_storage (gateway_document EmptyString)))
      ++ more.
Proof.
  apply pending_timers_stay.
  repeat constructor; intros [i Hi]; discriminate Hi.
Defined.

Lemma app_one_more {A} (l : list A) (x : A) : l <> l ++ [x].
Proof.
  intros H. apply (f_equal length) in H. rewrite length_app in H. simpl in H. lia.
Qed.

(** X8: a redirect of [enforceAccess] settles in one hop.  On the page
    the replace leads to, with the store as it is, [enforceAccess] does
    not navigate again; and the target keeps the deployment prefix of the
    path it was computed from. *)
Theorem redirect_settles (w w1 : World) (url : string) (doc : gmap string Element) :
  enforceAccess w = Ok w1 ->
  navigations w1 = navigations w ++ [NavReplace url] ->
  Js.startsWith url "/trxo" = Js.startsWith (pathname w) "/trxo"
  /\ exists w2, enforceAccess (arrive url doc w1) = Ok w2 /\ navigations w2 = [].
Proof.
  intros He Hn.
  destruct (enforceAccess_frame _ _ He) as (Hs & _ & _).
  assert (Hacc : hasAccess (arrive url doc w1) = hasAccess w).
  { unfold hasAccess, getItem, arrive. simpl. rewrite Hs. reflexivity. }
  destruct (enforceAccess_cases _ _ He)
    as (_ & _ & [(Ha & _ & [[_ Hn'] | [_ Hn']]) | (Ha & [[_ Hn'] | [_ Hn']])]);
    rewrite Hn' in Hn;
    try (destruct (app_one_more _ _ Hn)).
  - apply app_inv_head in Hn. injection Hn as <-.
    unfold enforceAccess. rewrite Hacc, Ha. unfold getDashboardPath.
    destruct (Js.startsWith (pathname w) "/trxo");
      (split; [reflexivity|]); eexists; (split; [reflexivity|]); reflexivity.
  - apply app_inv_head in Hn. injection Hn as <-.
    unfold enforceAccess. rewrite Hacc, Ha. unfold getGatewayPath.
    destruct (Js.startsWith (pathname w) "/trxo");
      (split; [reflexivity|]); eexists; (split; [reflexivity|]);
      unfold update; simpl; apply initFormObserver_rest.
Qed.

Lemma redirect_settles_witness :
  Js.startsWith "/trxo/" "/trxo" = Js.startsWith "/trxonomy/page" "/trxo"
  /\ exists w2,
      enforceAccess
        (arrive "/trxo/" (gateway_document EmptyString)
           (with_navigations [NavReplace "/trxo/"]
              (page "/trxonomy/page" empty_storage ∅)))
      = Ok w2
      /\ navigations w2 = [].
Proof.
  exact (redirect_settles
           (page "/trxonomy/page" empty_storage ∅)
           (with_navigations [NavReplace "/trxo/"]
              (page "/trxonomy/page" empty_storage ∅))
           "/trxo/" (gateway_document EmptyString) eq_refl eq_refl).
Defined.

(* ===================================================================== *)
(** ** The keystroke listener of the email field                          *)
(* ===================================================================== *)

Lemma initEmailValidation_email (w : World) (form emailInput : Element) :
  getElementById w "sib-form" = Some form ->
  getElementById w "EMAIL" = Some emailInput ->
  getElementById (initEmailValidation w) "EMAIL"
  = Some (addEventListener "input" (cb_inputClear (serial w)) false emailInput)
  /\ serial (initEmailValidation w) = S (serial w).
Proof.
  intros Hf He. unfold initEmailValidation. rewrite Hf.
  change (querySelector w "#EMAIL" = Some emailInput) in He.
  set (w2 := update "#sib-form" _ (update "#sib-form" _ w)).
  set (w3 := match querySelector w2 SUBMIT_BTN with Some _ => _ | None => w2 end).
  assert (H3 : querySelector w3 "#EMAIL" = Some emailInput /\ serial w3 = serial w).
  { subst w3 w2. destruct (querySelector _ SUBMIT_BTN);
      rewrite !querySelector_update, !decide_False by discriminate;
      (split; [exact He | reflexivity]). }
  destruct H3 as [H3e H3s]. clearbody w3. clear w2.
  change (getElementById w3 "EMAIL") with (querySelector w3 "#EMAIL"). rewrite H3e.
  change (getElementById ?x "EMAIL") with (querySelector x "#EMAIL").
  rewrite querySelector_with_serial, querySelector_update, decide_True by reflexivity.
  rewrite H3e, H3s. split; reflexivity.
Qed.

Lemma input_entry_fresh (n k : nat) (exts : list Listener) :
  (forall l, l ∈ exts -> external (l_callback l)) ->
  input_entry (k + n) ∉ exts ++ map (fun i => input_entry (k + i)) (seq 0 n).
Proof.
  intros Hext Hin. apply elem_of_app in Hin as [Hin | Hin].
  - destruct (Hext _ Hin) as [name Hn]. discriminate Hn.
  - apply list_elem_of_fmap in Hin as (i & Heq & Hi).
    apply elem_of_seq in Hi. injection Heq as Heq. lia.
Qed.

Lemma iter_initEmailValidation_email (n : nat) (w : World) (form emailInput : Element) :
  getElementById w "sib-form" = Some form ->
  getElementById w "EMAIL" = Some emailInput ->
  (forall l, l ∈ listeners emailInput -> external (l_callback l)) ->
  getElementById (Nat.iter n initEmailValidation w) "EMAIL"
  = Some (set_listeners
            (listeners emailInput ++ map (fun i => input_entry (serial w + i)) (seq 0 n))
            emailInput)
  /\ serial (Nat.iter n initEmailValidation w) = serial w + n.
Proof.
  intros Hf He Hext. induction n as [|n [IHe IHs]].
  - simpl. rewrite He, app_nil_r, set_listeners_same, Nat.add_0_r. split; reflexivity.
  - change (Nat.iter (S n) initEmailValidation w)
      with (initEmailValidation (Nat.iter n initEmailValidation w)).
    destruct (iter_initEmailValidation_targets n w form Hf) as [Hf' _].
    destruct (initEmailValidation_email _ _ _ Hf' IHe) as [He' Hs'].
    rewrite He', Hs', IHs. split; [|lia].
    unfold addEventListener. cbn [listeners set_listeners].
    rewrite bool_decide_eq_false_2 by apply (input_entry_fresh n (serial w) _ Hext).
    rewrite seq_S, map_app, app_assoc. reflexivity.
Qed.

Lemma inputClear_twice (w : World) :
  inputClear "#EMAIL" (inputClear "#EMAIL" w) = inputClear "#EMAIL" w.
Proof.
  unfold inputClear.
  apply (feedback_twice (set_display "none") (set_border VALID_BORDER));
    intros x; reflexivity.
Qed.

Lemma iter_inputClear (k : nat) (w : World) :
  Nat.iter (S k) (inputClear "#EMAIL") w = inputClear "#EMAIL" w.
Proof.
  induction k as [|k IH]; [reflexivity|].
  change (Nat.iter (S (S k)) (inputClear "#EMAIL") w)
    with (inputClear "#EMAIL" (Nat.iter (S k) (inputClear "#EMAIL") w)).
  rewrite IH. apply inputClear_twice.
Qed.

(** Third-party listeners and keystroke listeners in any order: all of
    them run, and the state is the one that as many runs of the keystroke
    function leave. *)
Lemma invoke_keystrokes (ls : list Listener) (w : World) (e : Event) :
  (forall l, l ∈ ls -> external (l_callback l) \/ is_inputClear (l_callback l) = true) ->
  immediateStopped e = false ->
  invoke ls "#EMAIL" w e
  = (Nat.iter (keystroke_runs (map l_callback ls)) (inputClear "#EMAIL") w,
     e, map l_callback ls).
Proof.
  unfold keystroke_runs. revert w.
  induction ls as [|l ls IH]; intros w Hall He; [reflexivity|].
  cbn [invoke map]. rewrite He.
  assert (Hrest : forall l', l' ∈ ls ->
            external (l_callback l') \/ is_inputClear (l_callback l') = true)
    by (intros l' Hl'; apply Hall, list_elem_of_further, Hl').
  destruct (Hall l (list_elem_of_here _ _)) as [[name Hn] | Hi].
  - rewrite Hn. cbn [call]. rewrite (IH w Hrest He).
    rewrite filter_cons_False by (cbn [is_inputClear]; discriminate). reflexivity.
  - destruct (l_callback l) as [| |k|]; try discriminate Hi. cbn [call].
    rewrite (IH _ Hrest He). rewrite filter_cons_True by reflexivity.
    cbn [length]. rewrite Nat.iter_succ_r. reflexivity.
Qed.

Lemma keystroke_runs_dispatch_order (type : string) (ls : list Listener) :
  keystroke_runs (map l_callback (dispatch_order type ls))
  = keystroke_runs (map l_callback (filter (fun l => l_type l = type) ls)).
Proof.
  unfold dispatch_order, keystroke_runs.
  induction (filter (fun l => l_type l = type) ls) as [|x T IH]; [reflexivity|].
  rewrite map_app, filter_app, length_app in *.
  destruct (l_capture x) eqn:Ec.
  - rewrite (filter_cons_True _ x T) by exact Ec.
    rewrite (filter_cons_False _ x T) by (rewrite Ec; discriminate).
    cbn [map]. destruct (is_inputClear (l_callback x)) eqn:Ei.
    + rewrite !(filter_cons_True _ (l_callback x)) by exact Ei. simpl. rewrite IH. reflexivity.
    + rewrite !(filter_cons_False _ (l_callback x)) by (rewrite Ei; discriminate). exact IH.
  - rewrite (filter_cons_False _ x T) by (rewrite Ec; discriminate).
    rewrite (filter_cons_True _ x T) by exact Ec.
    cbn [map]. destruct (is_inputClear (l_callback x)) eqn:Ei.
    + rewrite !(filter_cons_True _ (l_callback x)) by exact Ei. simpl.
      rewrite <- IH. lia.
    + rewrite !(filter_cons_False _ (l_callback x)) by (rewrite Ei; discriminate). exact IH.
Qed.

Lemma keystroke_runs_attached (k n : nat) (exts : list Listener) :
  (forall l, l ∈ exts -> external (l_callback l)) ->
  keystroke_runs
    (map l_callback
       (filter (fun l => l_type l = "input")
          (exts ++ map (fun i => input_entry (k + i)) (seq 0 n))))
  = n.
Proof.
  intros Hext. unfold keystroke_runs. rewrite filter_app, map_app, filter_app, length_app.
  assert (H0 : length (filter (fun cb => is_inputClear cb = true)
                 (map l_callback (filter (fun l => l_type l = "input") exts))) = 0).
  { clear -Hext. induction exts as [|x r IH]; [reflexivity|].
    assert (Hr : forall l, l ∈ r -> external (l_callback l))
      by (intros l Hl; apply Hext, list_elem_of_further, Hl).
    destruct (decide (l_type x = "input")) as [Ht|Ht].
    - rewrite filter_cons_True by exact Ht. cbn [map].
      destruct (Hext x (list_elem_of_here _ _)) as [name Hn].
      rewrite filter_cons_False by (rewrite Hn; simpl; discriminate). apply IH, Hr.
    - rewrite filter_cons_False by exact Ht. apply IH, Hr. }
  rewrite H0. cbn [Nat.add].
  assert (Hl : forall l : list nat,
            length (filter (fun cb => is_inputClear cb = true)
              (map l_callback
                 (filter (fun l => l_type l = "input")
                    (map (fun i => input_entry (k + i)) l)))) = length l).
  { induction l as [|i l IH]; [reflexivity|].
    cbn [map]. rewrite filter_cons_True by reflexivity. cbn [map].
    rewrite filter_cons_True by reflexivity. cbn [length]. rewrite IH. reflexivity. }
  rewrite Hl. apply length_seq.
Qed.

(** X9: the keystroke listener piles up.  Every run of
    [initEmailValidation] on a render with the form and the email field
    adds one more "input" listener to the field, a new function each
    time, and removes none: after [n] runs the field carries [n] of them
    after its other listeners.  A keystroke then runs all [n], and leaves
    what one of them leaves: error label hidden, valid border. *)
Theorem input_listeners_accumulate (n : nat) (w : World) (form emailInput : Element) :
  getElementById w "sib-form" = Some form ->
  getElementById w "EMAIL" = Some emailInput ->
  (forall l, l ∈ listeners emailInput -> external (l_callback l)) ->
  (exists emailInput',
      getElementById (Nat.iter n initEmailValidation w) "EMAIL" = Some emailInput'
      /\ listeners emailInput'
         = listeners emailInput ++ map (fun i => input_entry (serial w + i)) (seq 0 n))
  /\ keystroke_runs (dispatchEvent "#EMAIL" "input" (Nat.iter n initEmailValidation w)).2
     = n
  /\ (1 <= n ->
      (dispatchEvent "#EMAIL" "input" (Nat.iter n initEmailValidation w)).1.1
      = inputClear "#EMAIL" (Nat.iter n initEmailValidation w)).
Proof.
  intros Hf He Hext.
  destruct (iter_initEmailValidation_email n w form emailInput Hf He Hext) as [He' _].
  split; [eexists; split; [exact He' | reflexivity]|].
  change (querySelector (Nat.iter n initEmailValidation w) "#EMAIL" = Some
            (set_listeners
               (listeners emailInput
                ++ map (fun i => input_entry (serial w + i)) (seq 0 n)) emailInput))
    in He'.
  unfold dispatchEvent. rewrite He'. cbn [listeners set_listeners].
  set (ls := listeners emailInput ++ _).
  assert (Hall : forall l, l ∈ dispatch_order "input" ls ->
            external (l_callback l) \/ is_inputClear (l_callback l) = true).
  { intros l Hl. unfold dispatch_order in Hl.
    assert (Hin : l ∈ ls).
    { apply elem_of_app in Hl as [Hl|Hl];
        apply list_elem_of_filter in Hl as [_ Hl];
        apply list_elem_of_filter in Hl as [_ Hl]; exact Hl. }
    subst ls. apply elem_of_app in Hin as [Hin|Hin].
    - left. apply Hext, Hin.
    - right. apply list_elem_of_fmap in Hin as (i & -> & _). reflexivity. }
  rewrite (invoke_keystrokes _ _ (mkEvent "input" false false) Hall eq_refl).
  cbn [fst snd].
  rewrite keystroke_runs_dispatch_order. subst ls.
  rewrite (keystroke_runs_attached _ _ _ Hext).
  split; [reflexivity|].
  intros Hn. destruct n as [|k]; [lia|]. apply iter_inputClear.
Qed.

Lemma input_listeners_accumulate_witness :
  (exists emailInput',
      getElementById
        (Nat.iter 3 initEmailValidation
           (page "/" empty_storage (gateway_document "user@gmail.com"))) "EMAIL"
      = Some emailInput'
      /\ listeners emailInput' = [input_entry 100; input_entry 101; input_entry 102])
  /\ keystroke_runs
       (dispatchEvent "#EMAIL" "input"
          (Nat.iter 3 initEmailValidation
             (page "/" empty_storage (gateway_document "user@gmail.com")))).2 = 3
  /\ (1 <= 3 ->
      (dispatchEvent "#EMAIL" "input"
         (Nat.iter 3 initEmailValidation
            (page "/" empty_storage (gateway_document "user@gmail.com")))).1.1
      = inputClear "#EMAIL"
          (Nat.iter 3 initEmailValidation
             (page "/" empty_storage (gateway_document "user@gmail.com")))).
Proof.
  apply (input_listeners_accumulate 3
           (page "/" empty_storage (gateway_document "user@gmail.com"))
           (blank 6) (input_with 8 "user@gmail.com")).
  - reflexivity.
  - reflexivity.
  - intros l Hl. apply elem_of_nil in Hl. destruct Hl.
Defined.

(* ===================================================================== *)
(** ** From the gateway into the content                                  *)
(* ===================================================================== *)




(* ===================================================================== *)
(** ** A disabled store                                                   *)
(* ===================================================================== *)

Lemma after_disabled (op : Op) (w : World) :
  localStorage w = StorageDisabled -> ~ is_timer op ->
  localStorage (after op w) = StorageDisabled
  /\ navigations (after op w) = navigations w
  /\ observers (after op w) = observers w.
Proof.
  intros Hs Hnt. unfold after. destruct op; cbn [step].
  - simpl. repeat split. exact Hs.
  - unfold enforceAccess. rewrite (hasAccess_disabled _ Hs). repeat split. exact Hs.
  - simpl. repeat split. exact Hs.
  - destruct (initEmailValidation_page_only w) as (_ & Hl & Ho & _ & Hn).
    rewrite Hl, Hn, Ho. repeat split. exact Hs.
  - destruct (observers w !! i); [|repeat split; exact Hs].
    unfold observerCallback, setItem. rewrite Hs.
    destruct (successVisible w); repeat split; exact Hs.
  - destruct Hnt. exists i. reflexivity.
  - destruct (dispatchEvent_page_only "#sib-form" "submit" w) as (_ & Hl & Ho & _ & Hn).
    rewrite Hl, Hn, Ho. repeat split. exact Hs.
  - destruct (clickSubmit_page_only w) as (_ & Hl & Ho & _ & Hn).
    rewrite Hl, Hn, Ho. repeat split. exact Hs.
  - destruct (dispatchEvent_page_only "#EMAIL" "input" w) as (_ & Hl & Ho & _ & Hn).
    rewrite Hl, Hn, Ho. repeat split. exact Hs.
Qed.

Lemma run_disabled (ops : list Op) (w : World) :
  localStorage w = StorageDisabled ->
  Forall (fun op => ~ is_timer op) ops ->
  localStorage (run ops w) = StorageDisabled
  /\ navigations (run ops w) = navigations w
  /\ observers (run ops w) = observers w.
Proof.
  revert w. unfold run. induction ops as [|op ops IH]; intros w Hs Hall; simpl.
  - repeat split. exact Hs.
  - apply Forall_cons in Hall as [Hop Hall].
    destruct (after_disabled op w Hs Hop) as (Hs1 & Hn1 & Ho1).
    destruct (IH _ Hs1 Hall) as (Hs2 & Hn2 & Ho2).
    repeat split; congruence.
Qed.

(** X11: with the store disabled the gate does not work at all.  However
    often [enforceAccess] and the other handlers run, on whatever pages,
    short of a pending timer firing: every [enforceAccess] of the run,
    and one more after it, ends in the uncaught exception of its first
    line; nothing navigates, so a content page is never bounced to the
    gateway, no observer is armed, and the store stays disabled. *)
Theorem disabled_store_never_gates (ops : list Op) (w : World) :
  localStorage w = StorageDisabled ->
  Forall (fun op => ~ is_timer op) ops ->
  (forall before later, ops = before ++ OpEnforceAccess :: later ->
     step OpEnforceAccess (run before w) = Throw SecurityError)
  /\ enforceAccess (run ops w) = Throw SecurityError
  /\ localStorage (run ops w) = StorageDisabled
  /\ navigations (run ops w) = navigations w
  /\ observers (run ops w) = observers w.
Proof.
  intros Hs Hall.
  assert (Hthrow : forall w1, localStorage w1 = StorageDisabled ->
                     enforceAccess w1 = Throw SecurityError).
  { intros w1 H1. unfold enforceAccess. rewrite (hasAccess_disabled _ H1). reflexivity. }
  destruct (run_disabled ops w Hs Hall) as (Hs' & Hn' & Ho').
  split; [|split; [apply Hthrow, Hs' | repeat split; assumption]].
  intros before later ->. apply Forall_app in Hall as [Hb _].
  cbn [step]. apply Hthrow. apply (run_disabled before w Hs Hb).
Qed.

Lemma disabled_store_never_gates_witness :
  step OpEnforceAccess (run [] (page "/home/" StorageDisabled ∅))
  = Throw SecurityError
  /\ step OpEnforceAccess
       (run [OpEnforceAccess; OpRender "/trxo/guide/" ∅]
            (page "/home/" StorageDisabled ∅))
     = Throw SecurityError
  /\ enforceAccess
       (run [OpEnforceAccess; OpRender "/trxo/guide/" ∅; OpEnforceAccess; OpNotify 0]
            (page "/home/" StorageDisabled ∅))
     = Throw SecurityError
  /\ localStorage
       (run [OpEnforceAccess; OpRender "/trxo/guide/" ∅; OpEnforceAccess; OpNotify 0]
            (page "/home/" StorageDisabled ∅)) = StorageDisabled
  /\ navigations
       (run [OpEnforceAccess; OpRender "/trxo/guide/" ∅; OpEnforceAccess; OpNotify 0]
            (page "/home/" StorageDisabled ∅))
     = navigations (page "/home/" StorageDisabled ∅)
  /\ observers
       (run [OpEnforceAccess; OpRender "/trxo/guide/" ∅; OpEnforceAccess; OpNotify 0]
            (page "/home/" StorageDisabled ∅))
     = observers (page "/home/" StorageDisabled ∅).
Proof.
  destruct (disabled_store_never_gates
              [OpEnforceAccess; OpRender "/trxo/guide/" ∅; OpEnforceAccess; OpNotify 0]
              (page "/home/" StorageDisabled ∅) eq_refl)
    as (Hevery & Hrest).
  - repeat constructor; intros [i Hi]; discriminate Hi.
  - split; [exact (Hevery [] _ eq_refl)|].
    split; [exact (Hevery [OpEnforceAccess; OpRender "/trxo/guide/" ∅] _ eq_refl)|].
    exact Hrest.
Defined.

(* ===================================================================== *)
(** ** A denied click                                                     *)
(* ===================================================================== *)

(** X12: a click on the submit button with a denied address never
    becomes a submission.  With [validateEmailClick] attached to the
    button after its third-party listeners, the click runs the capturing
    third-party listeners of the button, then the validation, and stops
    there: the form's "submit" is not dispatched, so no listener of the
    form runs, and the state is the one the validation leaves. *)
Theorem denied_click_never_submits (w : World) (btn : Element) (bs : list Listener) :
  querySelector w SUBMIT_BTN = Some btn ->
  listeners btn = bs ++ [click_entry] ->
  (forall l, l ∈ bs -> external (l_callback l)) ->
  (processValidation w).1 = false ->
  (clickSubmit w).1 = (processValidation w).2
  /\ exists before,
      (clickSubmit w).2 = map l_callback before ++ [cb_validateEmailClick]
      /\ forall l, l ∈ before -> l ∈ bs /\ l_type l = "click" /\ l_capture l = true.
Proof.
  intros Hb Hbl Hbe Hdeny. unfold clickSubmit, dispatchEvent, dispatch_order.
  rewrite Hb, Hbl. rewrite !filter_app.
  rewrite (filter_cons_True (fun l => l_type l = "click") click_entry [])
    by reflexivity.
  rewrite filter_nil.
  rewrite (filter_cons_True (fun l => l_capture l = true) click_entry [])
    by reflexivity.
  rewrite (filter_cons_False (fun l => l_capture l = false) click_entry [])
    by discriminate.
  rewrite !filter_nil, app_nil_r, <- app_assoc. cbn [app].
  set (A := filter _ (filter _ bs)).
  set (B := filter (fun l => l_capture l = false) (filter _ bs)).
  assert (HA : forall l, l ∈ A -> l ∈ bs /\ l_type l = "click" /\ l_capture l = true).
  { intros l Hl. subst A. apply list_elem_of_filter in Hl as [Hc Hl].
    apply list_elem_of_filter in Hl as [Ht Hl]. repeat split; assumption. }
  assert (HB : forall l, l ∈ B -> external (l_callback l)).
  { intros l Hl. apply Hbe. subst B.
    apply list_elem_of_filter in Hl as [_ Hl]. apply list_elem_of_filter in Hl as [_ Hl].
    exact Hl. }
  rewrite (invoke_around A B click_entry SUBMIT_BTN w (mkEvent "click" false false))
    by (try exact HB; try reflexivity; intros l Hl; apply Hbe, (HA l Hl)).
  cbn [call l_callback click_entry]. unfold validateEmailClick.
  destruct (processValidation w) as [ok w1]. cbn [fst snd] in *. subst ok.
  cbn [negb defaultPrevented preventDefault stopImmediatePropagation immediateStopped
       fst snd].
  split; [reflexivity|]. exists A. split; [reflexivity | exact HA].
Qed.

Lemma denied_click_never_submits_witness :
  (clickSubmit
     (initEmailValidation
        (page "/" empty_storage (gateway_with_transport "user@gmail.com")))).1
  = (processValidation
       (initEmailValidation
          (page "/" empty_storage (gateway_with_transport "user@gmail.com")))).2
  /\ exists before,
      (clickSubmit
         (initEmailValidation
            (page "/" empty_storage (gateway_with_transport "user@gmail.com")))).2
      = map l_callback before ++ [cb_validateEmailClick]
      /\ forall l, l ∈ before ->
           l ∈ ([] : list Listener) /\ l_type l = "click" /\ l_capture l = true.
Proof.
  exact (denied_click_never_submits
           (initEmailValidation
              (page "/" empty_storage (gateway_with_transport "user@gmail.com")))
           (set_listeners [click_entry] (blank 7)) [] eq_refl eq_refl
           ltac:(intros l Hl; apply elem_of_nil in Hl; destruct Hl) eq_refl).
Defined.

(* ===================================================================== *)
(** ** The delayed attach on a navigation of the host                     *)
(* ===================================================================== *)

Lemma remove_listener_absent (l : Listener) (ls : list Listener) :
  l ∉ ls -> remove_listener l ls = ls.
Proof.
  induction ls as [|y ls IH]; simpl; [reflexivity|].
  rewrite not_elem_of_cons. intros [Hne Hnin].
  rewrite bool_decide_eq_false_2 by congruence. f_equal. apply IH, Hnin.
Qed.

Lemma dispatch_order_external (type : string) (ls : list Listener) :
  (forall l, l ∈ ls -> external (l_callback l)) ->
  forall l, l ∈ dispatch_order type ls -> external (l_callback l).
Proof.
  intros Hext l Hl. apply Hext. unfold dispatch_order in Hl.
  apply elem_of_app in Hl as [Hl|Hl];
    apply list_elem_of_filter in Hl as [_ Hl];
    apply list_elem_of_filter in Hl as [_ Hl]; exact Hl.
Qed.

(** X14: on a navigation of the host the validator is attached late.
    The subscriber of email-validation.js only schedules
    [initEmailValidation], 100 ms ahead.  On a render whose form carries
    third-party listeners only, a "submit" dispatched before that timer
    fires is not validated and not cancelled; once the timer has fired, a
    "submit" runs the validation once. *)
Theorem validator_attached_after_delay (w : World) (form : Element) :
  getElementById w "sib-form" = Some form ->
  (forall l, l ∈ listeners form -> external (l_callback l)) ->
  timers (after OpScheduleInit w) = timers w ++ [mkTimer 100 ta_initEmailValidation]
  /\ validation_runs (dispatchEvent "#sib-form" "submit" (after OpScheduleInit w)).2 = 0
  /\ defaultPrevented (dispatchEvent "#sib-form" "submit" (after OpScheduleInit w)).1.2
     = false
  /\ validation_runs
       (dispatchEvent "#sib-form" "submit"
          (after (OpTimer (length (timers w))) (after OpScheduleInit w))).2 = 1.
Proof.
  intros Hf Hext. unfold after. cbn [step].
  split; [reflexivity|].
  assert (Hfirst : dispatchEvent "#sib-form" "submit"
                     (setTimeout ta_initEmailValidation 100 w)
                   = (setTimeout ta_initEmailValidation 100 w,
                      mkEvent "submit" false false,
                      map l_callback (dispatch_order "submit" (listeners form)))).
  { unfold dispatchEvent.
    change (querySelector (setTimeout ta_initEmailValidation 100 w) "#sib-form")
      with (getElementById w "sib-form").
    rewrite Hf. apply invoke_external; [|reflexivity].
    apply dispatch_order_external, Hext. }
  rewrite Hfirst. cbn [fst snd defaultPrevented].
  split; [apply validation_runs_external, dispatch_order_external, Hext|].
  split; [reflexivity|].
  unfold fireTimer, setTimeout. cbn [timers with_timers].
  rewrite lookup_app_r, Nat.sub_diag by lia. cbn [lookup list_lookup t_action].
  cbn [runTimerAction].
  set (w' := with_timers _ _).
  assert (Hf' : getElementById w' "sib-form" = Some form) by exact Hf.
  destruct (initEmailValidation_targets w' form Hf') as [Hform _].
  assert (Hnin : submit_entry ∉ listeners form).
  { intros Hin. destruct (Hext _ Hin) as [name Hn]. discriminate Hn. }
  unfold reattach in Hform. rewrite (remove_listener_absent _ _ Hnin) in Hform.
  rewrite bool_decide_eq_false_2 in Hform by exact Hnin.
  apply (dispatch_runs_once "#sib-form" submit_entry _ _ (listeners form) Hform
           eq_refl Hext eq_refl).
  left. reflexivity.
Qed.

Lemma validator_attached_after_delay_witness :
  timers (after OpScheduleInit
            (page "/" empty_storage (gateway_with_transport "user@gmail.com")))
  = timers (page "/" empty_storage (gateway_with_transport "user@gmail.com"))
    ++ [mkTimer 100 ta_initEmailValidation]
  /\ validation_runs
       (dispatchEvent "#sib-form" "submit"
          (after OpScheduleInit
             (page "/" empty_storage (gateway_with_transport "user@gmail.com")))).2 = 0
  /\ defaultPrevented
       (dispatchEvent "#sib-form" "submit"
          (after OpScheduleInit
             (page "/" empty_storage (gateway_with_transport "user@gmail.com")))).1.2
     = false
  /\ validation_runs
       (dispatchEvent "#sib-form" "submit"
          (after (OpTimer (length (timers
                     (page "/" empty_storage (gateway_with_transport "user@gmail.com")))))
             (after OpScheduleInit
                (page "/" empty_storage (gateway_with_transport "user@gmail.com"))))).2
     = 1.
Proof.
  apply (validator_attached_after_delay
           (page "/" empty_storage (gateway_with_transport "user@gmail.com"))
           (set_listeners [transport_entry] (blank 6))).
  - reflexivity.
  - intros l Hl. apply list_elem_of_singleton in Hl. subst l.
    exists "transport". reflexivity.
Defined.
